(** * devtools-proxy: the id codec, the client table and the /json rewriting

    A shallow embedding of [devtools-proxy.py].  Python integers are
    unbounded, so they are modelled by [Z] without any wrap-around; the
    bit operators [<<], [>>], [|] and [&] are [Z.shiftl], [Z.shiftr],
    [Z.lor] and [Z.land], which agree with Python on every integer,
    negative ones included, as long as the shift count is not negative.
    A negative shift count raises [ValueError] in Python and is modelled
    as such. *)

From Stdlib Require Import ZArith List String Ascii Bool Lia.
From Stdlib Require Import DecimalString.
Import ListNotations.

Local Open Scope Z_scope.

(** ** Exceptions and results *)

Inductive exn : Type :=
| OverflowError
| ValueError
| TypeError
| KeyError
| AttributeError
| StopIteration
| JSONDecodeError
| RuntimeError.

Inductive result (A : Type) : Type :=
| Ok (a : A)
| Raise (e : exn).

Arguments Ok {A} a.
Arguments Raise {A} e.

Definition bind {A B : Type} (r : result A) (k : A -> result B) : result B :=
  match r with
  | Ok a => k a
  | Raise e => Raise e
  end.

Notation "x <- r ;; k" := (bind r (fun x => k))
  (at level 61, r at next level, right associativity).

(** ** IdCodec *)

Module IdCodec.

Definition BITS : Z := 31.

(** [def encode_id_raw(client_id, request_id, max_request_id, bits_for_client_id)] *)
Definition encode_id_raw (client_id request_id max_request_id bits_for_client_id : Z)
  : result Z :=
  if request_id >? max_request_id then Raise OverflowError
  else if BITS - bits_for_client_id <? 0 then Raise ValueError
  else Ok (Z.lor (Z.shiftl client_id (BITS - bits_for_client_id)) request_id).

(** [def decode_id_raw(encoded_id, max_request_id, bits_for_client_id)] *)
Definition decode_id_raw (encoded_id max_request_id bits_for_client_id : Z)
  : result (Z * Z) :=
  if BITS - bits_for_client_id <? 0 then Raise ValueError
  else
    let client_id := Z.shiftr encoded_id (BITS - bits_for_client_id) in
    let request_id := Z.land encoded_id max_request_id in
    Ok (client_id, request_id).

(** [bits(x) = math.ceil(math.log2(x))] in [main].  [math.log2] raises
    [ValueError] unless [x] is positive.  For [1 <= x <= 2^31], the range in
    which the 31-bit split makes sense, the floating-point logarithm is
    accurate enough for the ceiling to be the exact [Z.log2_up]. *)
Definition bits (x : Z) : result Z :=
  if x <=? 0 then Raise ValueError else Ok (Z.log2_up x).

(** The three values [main] derives from [--max-clients]. *)
Record params : Type := mkParams {
  bits_for_client_id : Z;
  max_clients : Z;
  max_request_id : Z
}.

Definition main_params (arg_max_clients : Z) : result params :=
  b <- bits arg_max_clients ;;
  Ok {| bits_for_client_id := b;
        max_clients := 2 ^ b;
        max_request_id := 2 ^ (BITS - b) - 1 |}.

(** The partial applications stored in [app['f']]. *)
Definition encode_id (p : params) (client_id request_id : Z) : result Z :=
  encode_id_raw client_id request_id (max_request_id p) (bits_for_client_id p).

Definition decode_id (p : params) (encoded_id : Z) : result (Z * Z) :=
  decode_id_raw encoded_id (max_request_id p) (bits_for_client_id p).

End IdCodec.

(** ** JSON values and Python dictionaries *)

Module Json.

#[local] Set Warnings "-register-all".

(** What [json.loads] returns.  Numbers are integers: the proxy only
    computes with the integer [id] field, and floats are left out. *)
Inductive json : Type :=
| JNull
| JBool (b : bool)
| JNum (n : Z)
| JStr (s : string)
| JArr (items : list json)
| JObj (fields : list (string * json)).

(** A Python [dict] with string keys keeps its insertion order: an
    association list in which a key occurs once. *)
Fixpoint dict_get {V : Type} (k : string) (d : list (string * V)) : option V :=
  match d with
  | [] => None
  | (k', v) :: rest => if String.eqb k k' then Some v else dict_get k rest
  end.

(** [d[k] = v]: an existing key keeps its place, a new one goes last. *)
Fixpoint dict_set {V : Type} (k : string) (v : V) (d : list (string * V))
  : list (string * V) :=
  match d with
  | [] => [(k, v)]
  | (k', v') :: rest =>
      if String.eqb k k' then (k', v) :: rest else (k', v') :: dict_set k v rest
  end.

(** [data.get(k)]: [None] stands for Python's [None], which is also what a
    JSON [null] under that key gives. *)
Definition get (data : json) (k : string) : result (option json) :=
  match data with
  | JObj fields =>
      match dict_get k fields with
      | Some JNull => Ok None
      | r => Ok r
      end
  | _ => Raise AttributeError
  end.

(** [data[k]] *)
Definition subscript (data : json) (k : string) : result json :=
  match data with
  | JObj fields =>
      match dict_get k fields with
      | Some v => Ok v
      | None => Raise KeyError
      end
  | _ => Raise TypeError
  end.

(** [data[k] = v] *)
Definition assign (data : json) (k : string) (v : json) : result json :=
  match data with
  | JObj fields => Ok (JObj (dict_set k v fields))
  | _ => Raise TypeError
  end.

(** The operand of [>>], [&], [|] and of the comparison with an [int]:
    [bool] is a subclass of [int]; everything else is a [TypeError]. *)
Definition as_int (v : json) : result Z :=
  match v with
  | JNum n => Ok n
  | JBool true => Ok 1
  | JBool false => Ok 0
  | _ => Raise TypeError
  end.

(** ["%d" % n] *)
Definition fmt_d (n : Z) : string := NilZero.string_of_int (Z.to_int n).

End Json.

(** ** PageBroker: the WebSocket handlers *)

Module Broker.

Import Json.

Local Open Scope string_scope.

(** A WebSocket object ([WebSocketResponse] towards a client,
    [ClientWebSocketResponse] towards the browser) is known by its identity. *)
Definition ws : Type := nat.

(** What a handler does to the outside: lines printed, frames sent, and the
    calls it awaits. *)
Inductive event : Type :=
| Print (line : string)
| PrintData (prefix : string) (data : json)
| Prepare (w : ws)
| SendStr (w : ws) (text : string)
| CreateTask (tab_id : string)
| NewSession
| WsConnect (url : string).

(** Handlers print and send before they may raise: a computation yields the
    events so far together with a value or the exception. *)
Definition M (A : Type) : Type := (list event * result A)%type.

Definition ret {A : Type} (a : A) : M A := ([], Ok a).

Definition raise {A : Type} (e : exn) : M A := ([], Raise e).

Definition emit (e : event) : M unit := ([e], Ok tt).

Definition lift {A : Type} (r : result A) : M A := ([], r).

Definition mbind {A B : Type} (m : M A) (k : A -> M B) : M B :=
  match m with
  | (es, Ok a) => let (es', r) := k a in ((es ++ es')%list, r)
  | (es, Raise e) => (es, Raise e)
  end.

Notation "x <~ m ;; k" := (mbind m (fun x => k))
  (at level 61, m at next level, right associativity).
Notation "m ;;; k" := (mbind m (fun _ => k))
  (at level 61, right associativity).

Definition events {A : Type} (m : M A) : list event := fst m.
Definition outcome {A : Type} (m : M A) : result A := snd m.

(** The frames among the events: which socket was sent which text. *)
Fixpoint sent (es : list event) : list (ws * string) :=
  match es with
  | [] => []
  | SendStr w text :: rest => (w, text) :: sent rest
  | _ :: rest => sent rest
  end.

(** The value stored under a client socket in [app['clients']]. *)
Record client : Type := mkClient {
  id : Z;
  tab_id : string
}.

(** The part of the [Application] mapping the handlers use.  [clients] is
    the one dictionary of the process, keyed by client socket, in insertion
    order; [tabs] maps a tab id to its dictionary, of which only the ['ws']
    entry exists. *)
Record app : Type := mkApp {
  f : IdCodec.params;
  max_clients : Z;
  chrome_host : string;
  chrome_port : Z;
  clients : list (ws * client);
  tabs : list (string * option ws);
  sessions : nat;
  tasks : list string
}.

Definition set_clients (a : app) (cs : list (ws * client)) : app :=
  mkApp (f a) (max_clients a) (chrome_host a) (chrome_port a)
        cs (tabs a) (sessions a) (tasks a).

Definition set_tabs (a : app) (ts : list (string * option ws)) : app :=
  mkApp (f a) (max_clients a) (chrome_host a) (chrome_port a)
        (clients a) ts (sessions a) (tasks a).

Definition add_session (a : app) : app :=
  mkApp (f a) (max_clients a) (chrome_host a) (chrome_port a)
        (clients a) (tabs a) (S (sessions a)) (tasks a).

Definition add_task (a : app) (t : string) : app :=
  mkApp (f a) (max_clients a) (chrome_host a) (chrome_port a)
        (clients a) (tabs a) (sessions a) (tasks a ++ [t])%list.

(** A handler that leaves the reader tasks and the tab ids as they are. *)
Definition tabs_kept (a a' : app) : Prop :=
  tasks a' = tasks a /\ map fst (tabs a') = map fst (tabs a).

(** [main] and [init]: the arguments, then the empty tables. *)
Definition init (arg_max_clients : Z) (arg_chrome_host : string)
  (arg_chrome_port : Z) : result app :=
  p <- IdCodec.main_params arg_max_clients ;;
  Ok (mkApp p (IdCodec.max_clients p) arg_chrome_host arg_chrome_port
            [] [] 0 []).

(** [path_qs.split('/')[-1]] *)
Fixpoint last_segment_from (acc s : string) : string :=
  match s with
  | EmptyString => acc
  | String c rest =>
      if Ascii.eqb c "/"%char then last_segment_from EmptyString rest
      else last_segment_from (acc ++ String c EmptyString) rest
  end.

Definition last_segment (path_qs : string) : string :=
  last_segment_from EmptyString path_qs.

(** The clients of one page, as [ws_browser_handler] selects them:
    [{k: v for k, v in app['clients'].items() if v.get('tab_id') == tab_id}]. *)
Definition clients_of_tab (t : string) (cs : list (ws * client))
  : list (ws * client) :=
  filter (fun kv => String.eqb (tab_id (snd kv)) t) cs.

(** Those of them a frame is sent to: [if not client.closed]. *)
Definition open_clients_of_tab (closed : ws -> bool) (t : string)
  (cs : list (ws * client)) : list (ws * client) :=
  filter (fun kv => negb (closed (fst kv))) (clients_of_tab t cs).

(** The ids in a table of clients, in the order of registration. *)
Definition ids (cs : list (ws * client)) : list Z :=
  map (fun kv => id (snd kv)) cs.

(** [next(ws for ws, client in app['clients'].items() if client['id'] == client_id)] *)
Definition next_client (client_id : Z) (cs : list (ws * client)) : result ws :=
  match find (fun kv => id (snd kv) =? client_id)%Z cs with
  | Some kv => Ok (fst kv)
  | None => Raise StopIteration
  end.

Definition client_prefix (client_id : Z) : string :=
  "[CLIENT " ++ fmt_d client_id ++ "]".

(** A frame read from a socket: [msg.type == WSMsgType.TEXT] with its
    [msg.data], or any other type. *)
Inductive msg : Type :=
| Text (data : string)
| OtherMsg.

(** What a handler is waiting for when it gives control back. *)
Inductive status : Type :=
| Returned
| AwaitConnect (url : string)
| Reading.

Section Handlers.

(** The JSON codec ([json] or [ujson]): [loads] fails on text that is not
    JSON, [dumps] serialises. *)
Variable loads : string -> option json.
Variable dumps : json -> string.

(** [msg.json(loads=json.loads)] *)
Definition msg_json (raw : string) : M json :=
  match loads raw with
  | Some data => ret data
  | None => raise JSONDecodeError
  end.

(** [ws.send_json(data, dumps=json.dumps)]: sending on a socket that is
    closed raises (aiohttp's [RuntimeError]); nothing is sent then. *)
Definition send_json (closed : ws -> bool) (w : ws) (data : json) : M unit :=
  if closed w then raise RuntimeError else emit (SendStr w (dumps data)).

(** *** ws_handler *)

(** The part of [ws_handler] before it calls [ws_client_handler]: the first
    request for a tab creates its dictionary and the browser task. *)
Definition ws_handler (a : app) (path_qs : string) : app * list event :=
  let t := last_segment path_qs in
  match dict_get t (tabs a) with
  | None => (add_task (set_tabs a (dict_set t None (tabs a))) t, [CreateTask t])
  | Some _ => (a, [])
  end.

(** *** ws_client_handler *)

(** The locals of one run of [ws_client_handler]. *)
Record client_task : Type := mkTask {
  ct_ws : ws;
  ct_path_qs : string;
  ct_client_id : Z
}.

Definition ct_tab_id (t : client_task) : string := last_segment (ct_path_qs t).

(** Up to [await ws_client.prepare(request)]: the client id is the size of
    [app['clients']] at this moment. *)
Definition client_begin (a : app) (w : ws) (path_qs : string)
  : client_task * list event :=
  (mkTask w path_qs (Z.of_nat (List.length (clients a))), [Prepare w]).

(** [app['tabs'][tab_id].get('ws') is None or app['tabs'][tab_id]['ws'].closed] *)
Definition upstream_missing (closed : ws -> bool) (a : app) (t : string)
  : result bool :=
  match dict_get t (tabs a) with
  | None => Raise KeyError
  | Some None => Ok true
  | Some (Some up) => Ok (closed up)
  end.

(** From the return of [prepare] to the next suspension: the capacity
    check, the registration, and the decision to dial the browser. *)
Definition client_prepared (closed : ws -> bool) (a : app) (t : client_task)
  : app * M status :=
  let prefix := client_prefix (ct_client_id t) in
  if (ct_client_id t >=? max_clients a)%Z then
    (a, emit (Print (prefix ++ " CONNECTION FAILED")) ;;; ret Returned)
  else
    let a1 :=
      set_clients a
        (clients a ++ [(ct_ws t, mkClient (ct_client_id t) (ct_tab_id t))])%list in
    match upstream_missing closed a1 (ct_tab_id t) with
    | Raise e => (a1, emit (Print (prefix ++ " CONNECTED")) ;;; raise e)
    | Ok true =>
        let url := "ws://" ++ chrome_host a ++ ":" ++ fmt_d (chrome_port a)
                   ++ ct_path_qs t in
        (add_session a1,
         emit (Print (prefix ++ " CONNECTED")) ;;;
         emit NewSession ;;;
         emit (WsConnect url) ;;;
         ret (AwaitConnect url))
    | Ok false => (a1, emit (Print (prefix ++ " CONNECTED")) ;;; ret Reading)
    end.

(** From the return of [session.ws_connect(url)]: [None] is a
    [WSServerHandshakeError]. *)
Definition client_connected (a : app) (t : client_task) (r : option ws)
  : app * M status :=
  match r with
  | None =>
      (a, emit (Print (client_prefix (ct_client_id t) ++ " CONNECTION ERROR: "
                       ++ ct_tab_id t)) ;;;
          ret Returned)
  | Some up =>
      match dict_get (ct_tab_id t) (tabs a) with
      | None => (a, raise KeyError)
      | Some _ => (set_tabs a (dict_set (ct_tab_id t) (Some up) (tabs a)), ret Reading)
      end
  end.

(** The body of [async for msg in ws_client]. *)
Definition client_on_msg (closed : ws -> bool) (a : app) (t : client_task)
  (m : msg) : app * M status :=
  match m with
  | OtherMsg => (a, ret Reading)
  | Text raw =>
      match dict_get (ct_tab_id t) (tabs a) with
      | Some (Some up) =>
          if closed up then
            (a, emit (Print (client_prefix (ct_client_id t) ++ " RECONNECTED")) ;;;
                ret Returned)
          else
            (a,
             data <~ msg_json raw ;;
             old <~ lift (subscript data "id") ;;
             request_id <~ lift (as_int old) ;;
             encoded <~ lift (IdCodec.encode_id (f a) (ct_client_id t) request_id) ;;
             data' <~ lift (assign data "id" (JNum encoded)) ;;
             emit (PrintData (client_prefix (ct_client_id t) ++ " >>") data') ;;;
             send_json closed up data' ;;;
             ret Reading)
      | _ => (a, raise KeyError)
      end
  end.

(** The [else] of the loop, taken when the client's stream ends. *)
Definition client_on_close (a : app) (t : client_task) : app * M status :=
  (a, emit (Print (client_prefix (ct_client_id t) ++ " DISCONNECTED")) ;;;
      ret Returned).

(** The socket states seen when a frame arrives, and the frame. *)
Definition arrival : Type := ((ws -> bool) * msg)%type.

(** Carry on with [k] when a step leaves the handler in its loop. *)
Definition and_then (x : app * M status) (k : app -> app * M status)
  : app * M status :=
  match x with
  | (a, (es, Ok Reading)) =>
      let '(a', (es', r)) := k a in (a', ((es ++ es')%list, r))
  | other => other
  end.

(** [async for msg in ws_client: ... else: ...] over the frames the client
    sends before it closes. *)
Fixpoint client_loop (a : app) (t : client_task) (ms : list arrival)
  : app * M status :=
  match ms with
  | [] => client_on_close a t
  | (closed, m) :: rest =>
      and_then (client_on_msg closed a t m) (fun a' => client_loop a' t rest)
  end.

(** A request for a WebSocket run without interruption up to its read
    loop: [ws_handler], then [ws_client_handler] through [prepare] and, when
    the browser has to be dialled, through [ws_connect], whose result is
    [dial]. *)
Definition attach (closed : ws -> bool) (a : app) (w : ws) (path_qs : string)
  (dial : option ws) : app * M status :=
  let (a0, es0) := ws_handler a path_qs in
  let (t, es1) := client_begin a0 w path_qs in
  match client_prepared closed a0 t with
  | (a1, (es2, Ok (AwaitConnect _))) =>
      let '(a2, (es3, r)) := client_connected a1 t dial in
      (a2, ((es0 ++ es1 ++ es2 ++ es3)%list, r))
  | (a1, (es2, r)) => (a1, ((es0 ++ es1 ++ es2)%list, r))
  end.

(** The whole of [ws_client_handler] for one client served alone. *)
Definition ws_client_handler (closed : ws -> bool) (a : app) (w : ws)
  (path_qs : string) (dial : option ws) (ms : list arrival) : app * M status :=
  and_then (attach closed a w path_qs dial)
           (fun a' => client_loop a' (fst (client_begin (fst (ws_handler a path_qs)) w path_qs)) ms).

(** One request after the other, each getting as far as its read loop. *)
Record request : Type := mkRequest {
  rq_ws : ws;
  rq_path_qs : string;
  rq_closed : ws -> bool;
  rq_dial : option ws
}.

Fixpoint attach_all (a : app) (rs : list request) : app :=
  match rs with
  | [] => a
  | r :: rest =>
      attach_all (fst (attach (rq_closed r) a (rq_ws r) (rq_path_qs r) (rq_dial r))) rest
  end.

(** *** ws_browser_handler *)

(** The event branch: every client of the tab that is not closed gets the
    frame as it came. *)
Fixpoint fan_out (closed : ws -> bool) (raw : string) (cs : list (ws * client))
  : M unit :=
  match cs with
  | [] => ret tt
  | (w, c) :: rest =>
      (if closed w then ret tt
       else emit (Print (client_prefix (id c) ++ " << " ++ raw)) ;;;
            emit (SendStr w raw)) ;;;
      fan_out closed raw rest
  end.

(** The body of [async for msg in app['tabs'][tab_id]['ws']]. *)
Definition browser_on_msg (closed : ws -> bool) (a : app) (t : string) (m : msg)
  : app * M unit :=
  match m with
  | OtherMsg => (a, ret tt)
  | Text raw =>
      (a,
       data <~ msg_json raw ;;
       i <~ lift (get data "id") ;;
       match i with
       | None => fan_out closed raw (clients_of_tab t (clients a))
       | Some v =>
           encoded <~ lift (as_int v) ;;
           cr <~ lift (IdCodec.decode_id (f a) encoded) ;;
           emit (PrintData (client_prefix (fst cr) ++ " <<") data) ;;;
           data' <~ lift (assign data "id" (JNum (snd cr))) ;;
           w <~ lift (next_client (fst cr) (clients a)) ;;
           send_json closed w data'
       end)
  end.

(** What the browser's reader sees when a frame arrives: the application
    as the other handlers have left it, the socket states, the frame. *)
Definition browser_arrival : Type := (app * (ws -> bool) * msg)%type.

(** [async for msg in app['tabs'][tab_id]['ws']] over the frames the browser
    sends before its stream ends: an exception ends the task, the end of the
    stream prints DISCONNECTED. *)
Fixpoint browser_loop (t : string) (ms : list browser_arrival) : M unit :=
  match ms with
  | [] => emit (Print ("[BROWSER " ++ t ++ "] DISCONNECTED"))
  | (a, closed, m) :: rest =>
      snd (browser_on_msg closed a t m) ;;; browser_loop t rest
  end.

(** *** Handlers taking turns *)

(** Between two suspensions a handler runs alone.  The state of the process
    is the application together with the runs of [ws_client_handler] that
    wait for [prepare] to return. *)
Record system : Type := mkSystem {
  sys_app : app;
  sys_waiting : list client_task
}.

Inductive step : system -> system -> Prop :=
| step_begin (s : system) (w : ws) (path_qs : string) :
    let a0 := fst (ws_handler (sys_app s) path_qs) in
    step s (mkSystem a0 (fst (client_begin a0 w path_qs) :: sys_waiting s))
| step_prepared (a : app) (l1 l2 : list client_task) (t : client_task)
    (closed : ws -> bool) :
    step (mkSystem a (l1 ++ t :: l2)%list)
         (mkSystem (fst (client_prepared closed a t)) (l1 ++ l2)%list)
| step_connected (s : system) (t : client_task) (r : option ws) :
    step s (mkSystem (fst (client_connected (sys_app s) t r)) (sys_waiting s))
| step_client_msg (s : system) (t : client_task) (closed : ws -> bool) (m : msg) :
    step s (mkSystem (fst (client_on_msg closed (sys_app s) t m)) (sys_waiting s))
| step_client_close (s : system) (t : client_task) :
    step s (mkSystem (fst (client_on_close (sys_app s) t)) (sys_waiting s))
| step_browser_msg (s : system) (t : string) (closed : ws -> bool) (m : msg) :
    step s (mkSystem (fst (browser_on_msg closed (sys_app s) t m)) (sys_waiting s)).

Inductive reachable (s0 : system) : system -> Prop :=
| reach_refl : reachable s0 s0
| reach_step (s s' : system) : reachable s0 s -> step s s' -> reachable s0 s'.

End Handlers.

End Broker.

(** ** HttpProxy: the rewriting of /json and /json/list *)

Module HttpProxy.

Import Json.

Local Open Scope string_scope.

(** An entry of the array the browser answers: a dictionary whose values
    are strings, as in every field Chrome sends (a value of another type
    makes [":%d/" in v] raise). *)
Definition tab : Type := list (string * string).

(** [s.split(':')] *)
Fixpoint split_from (sep : ascii) (acc s : string) : list string :=
  match s with
  | EmptyString => [acc]
  | String c rest =>
      if Ascii.eqb c sep then acc :: split_from sep EmptyString rest
      else split_from sep (acc ++ String c EmptyString) rest
  end.

Definition split (sep : ascii) (s : string) : list string :=
  split_from sep EmptyString s.

(** [proxy_host, proxy_port = request.host.split(':')]: unpacking anything
    but two parts is a [ValueError]. *)
Definition split_host (host : string) : result (string * string) :=
  match split ":"%char host with
  | [h; p] => Ok (h, p)
  | _ => Raise ValueError
  end.

(** The string has no character [c]. *)
Definition free_of (c : ascii) (s : string) : Prop :=
  ~ In c (list_ascii_of_string s).

(** [response.headers[CONTENT_TYPE].split(';')[0]] in
    [transparent_request]: the media type without its parameters. *)
Definition content_type (header : string) : string :=
  hd EmptyString (split ";"%char header).

(** [sub in v] on strings *)
Fixpoint contains (sub v : string) : bool :=
  String.prefix sub v ||
  match v with
  | EmptyString => false
  | String _ rest => contains sub rest
  end.

(** Text.  A Python [str] is a sequence of code points; a [string] here is
    its UTF-8 encoding.  Splitting at an ASCII character, searching for
    ASCII text and comparing with it give the same on both, since in UTF-8
    a byte below 128 is always a whole code point.  Only the dot of an
    expression looks at a code point as such. *)
Definition is_ascii7 (c : ascii) : bool := Nat.ltb (nat_of_ascii c) 128.

Definition is_continuation (c : ascii) : bool :=
  Nat.leb 128 (nat_of_ascii c) && Nat.ltb (nat_of_ascii c) 192.

(** The number of bytes of the code point whose encoding starts with [c];
    0 when no encoding starts with [c]. *)
Definition utf8_width (c : ascii) : nat :=
  let n := nat_of_ascii c in
  if Nat.ltb n 128 then 1
  else if Nat.ltb n 192 then 0
  else if Nat.ltb n 224 then 2
  else if Nat.ltb n 240 then 3
  else if Nat.ltb n 248 then 4
  else 0.

(** [s] without [k] continuation bytes at its start. *)
Fixpoint continuation (k : nat) (s : string) : option string :=
  match k with
  | O => Some s
  | S k' =>
      match s with
      | EmptyString => None
      | String c rest =>
          if is_continuation c then continuation k' rest else None
      end
  end.

(** [s[n:]] *)
Fixpoint drop (n : nat) (s : string) : string :=
  match n, s with
  | O, _ => s
  | S _, EmptyString => EmptyString
  | S k, String _ rest => drop k rest
  end.

(** The expressions [devtools_pattern] is made of: a literal character, or
    the dot, which stands for any code point but a newline. *)
Inductive pchar : Type :=
| Lit (c : ascii)
| AnyChar.

Definition literal (s : string) : list pchar := map Lit (list_ascii_of_string s).

(** [--chrome-host] goes into the expression as it is, so what it means
    there depends on its characters.  The embedding takes a host name or an
    IPv4 address: letters, digits, [-] and [.], of which the dot is the only
    one the expression language reads specially.  Any other host is
    excluded by the type. *)
Definition is_host_char (c : ascii) : bool :=
  let n := nat_of_ascii c in
  (Nat.leb 48 n && Nat.leb n 57) || (Nat.leb 65 n && Nat.leb n 90) ||
  (Nat.leb 97 n && Nat.leb n 122) || Nat.eqb n 45 || Nat.eqb n 46.

Record hostname : Type := mkHostname {
  host_text :> string;
  host_ok : forallb is_host_char (list_ascii_of_string host_text) = true
}.

Definition host_expr (h : hostname) : list pchar :=
  map (fun c => if Ascii.eqb c "."%char then AnyChar else Lit c)
      (list_ascii_of_string (host_text h)).

Record pattern : Type := mkPattern {
  alternatives : list (list pchar);
  suffix : list pchar
}.

(** [re.compile(r"(127\.0\.0\.1|localhost|%s):%d/" % (chrome_host, chrome_port))] *)
Definition devtools_pattern (chrome_host : hostname) (chrome_port : Z) : pattern :=
  mkPattern [literal "127.0.0.1"; literal "localhost"; host_expr chrome_host]
            (literal (":" ++ fmt_d chrome_port ++ "/")).

(** One character of the expression at the start of [s]: what is left of
    [s] after it.  The dot takes a whole code point, one to four bytes. *)
Definition pchar_matches (p : pchar) (s : string) : option string :=
  match s with
  | EmptyString => None
  | String c rest =>
      match p with
      | Lit c' => if Ascii.eqb c' c then Some rest else None
      | AnyChar =>
          if Ascii.eqb c "010"%char then None
          else match utf8_width c with
               | O => None
               | S k => continuation k rest
               end
      end
  end.

(** The characters of [p] at the start of [s]: what is left of [s] after
    them. *)
Fixpoint matches_here (p : list pchar) (s : string) : option string :=
  match p with
  | [] => Some s
  | pc :: p' =>
      match pchar_matches pc s with
      | Some rest => matches_here p' rest
      | None => None
      end
  end.

(** The match at the start of [s], if any, as its length in bytes: the
    alternatives are tried in order, each followed by the suffix. *)
Fixpoint match_alternatives (alts : list (list pchar)) (suf : list pchar)
  (s : string) : option nat :=
  match alts with
  | [] => None
  | p :: others =>
      match matches_here (p ++ suf)%list s with
      | Some rest => Some (String.length s - String.length rest)%nat
      | None => match_alternatives others suf s
      end
  end.

Definition match_here (pat : pattern) (s : string) : option nat :=
  match_alternatives (alternatives pat) (suffix pat) s.

(** The replacement.  [sub] reads a backslash in it as the start of an
    escape or of a group reference; text without backslash it inserts as it
    is.  The embedding takes the replacement as pieces of text without
    backslash, which it joins; any other replacement is excluded by the
    type. *)
Definition is_plain_char (c : ascii) : bool := negb (Ascii.eqb c "092"%char).

Record plain : Type := mkPlain {
  plain_text :> string;
  plain_ok : forallb is_plain_char (list_ascii_of_string plain_text) = true
}.

Definition to_plain (s : string) : option plain :=
  match forallb is_plain_char (list_ascii_of_string s) as b
        return forallb is_plain_char (list_ascii_of_string s) = b -> option plain
  with
  | true => fun H => Some (mkPlain s H)
  | false => fun _ => None
  end eq_refl.

Definition template : Type := list plain.

Fixpoint template_text (t : template) : string :=
  match t with
  | [] => EmptyString
  | piece :: rest => plain_text piece ++ template_text rest
  end.

(** ["%s:%s/" % (proxy_host, proxy_port)] *)
Definition replacement (proxy_host proxy_port : plain) : template :=
  [proxy_host; mkPlain ":" eq_refl; proxy_port; mkPlain "/" eq_refl].

(** [pattern.sub(repl, s)]: from left to right, every match is replaced
    and the search goes on after it; [skip] counts the bytes of the current
    match still to pass.  The pattern ends in [":port/"], so a match is
    never empty. *)
Fixpoint sub_from (pat : pattern) (repl : template) (skip : nat) (s : string)
  : string :=
  match s with
  | EmptyString => EmptyString
  | String c rest =>
      match skip with
      | S k => sub_from pat repl k rest
      | O =>
          match match_here pat s with
          | Some (S n) => template_text repl ++ sub_from pat repl n rest
          | _ => String c (sub_from pat repl 0 rest)
          end
      end
  end.

Definition sub (pat : pattern) (repl : template) (s : string) : string :=
  sub_from pat repl 0 s.

(** Whether the pattern matches somewhere in [s]. *)
Fixpoint has_match (pat : pattern) (s : string) : bool :=
  match match_here pat s with
  | Some _ => true
  | None =>
      match s with
      | EmptyString => false
      | String _ rest => has_match pat rest
      end
  end.

(** Whether no match of the pattern starts in [u] when [u] is followed by
    [w]. *)
Fixpoint no_start (pat : pattern) (u w : string) : bool :=
  match u with
  | EmptyString => true
  | String _ u' =>
      match match_here pat (u ++ w) with
      | Some _ => false
      | None => no_start pat u' w
      end
  end.

(** Whether a match of the pattern could take in part of the text [r] when
    [r] stands between other texts.  [compat p r] lays the characters of [p]
    on the bytes of [r] as far as both go.  A match that meets [r] either
    starts in [r], at some byte [x], or starts before [r] and reaches it
    with its character number [a]. *)
Definition pchar_accepts (p : pchar) (c : ascii) : bool :=
  match p with
  | Lit c' => Ascii.eqb c' c
  | AnyChar => negb (Ascii.eqb c "010"%char)
  end.

Fixpoint compat (p : list pchar) (r : string) : bool :=
  match p, r with
  | [], _ => true
  | _ :: _, EmptyString => true
  | pc :: p', String c r' => pchar_accepts pc c && compat p' r'
  end.

Definition isolated (pat : pattern) (r : string) : bool :=
  match r with EmptyString => false | String _ _ => true end &&
  forallb is_ascii7 (list_ascii_of_string r) &&
  forallb (fun alt =>
             let p := (alt ++ suffix pat)%list in
             forallb (fun x => negb (compat p (drop x r)))
                     (seq 0 (String.length r)) &&
             forallb (fun a => negb (compat (skipn a p) r))
                     (seq 1 (List.length p - 1)))
          (alternatives pat).

Section Rewriting.

Variable chrome_host : hostname.
Variable chrome_port : Z.

(** The loop over [tab.items()]: a key is visited once, and only its own
    value is assigned. *)
Definition rewrite_value (proxy_host proxy_port : plain) (v : string) : string :=
  if contains (":" ++ fmt_d chrome_port ++ "/") v
  then sub (devtools_pattern chrome_host chrome_port)
           (replacement proxy_host proxy_port) v
  else v.

Definition rewrite_fields (proxy_host proxy_port : plain) (t : tab) : tab :=
  map (fun kv => (fst kv, rewrite_value proxy_host proxy_port (snd kv))) t.

(** [if tab.get(k) is None: tab[k] = v] *)
Definition set_default (k v : string) (t : tab) : tab :=
  match dict_get k t with
  | None => dict_set k v t
  | Some _ => t
  end.

(** The body of [for tab in data]; a tab without id only gets the warning
    printed and is left as the loop over its fields made it. *)
Definition rewrite_tab (proxy_host proxy_port : plain) (t : tab) : tab :=
  let t1 := rewrite_fields proxy_host proxy_port t in
  match dict_get "id" t1 with
  | None => t1
  | Some i =>
      let devtools_url :=
        proxy_host ++ ":" ++ proxy_port ++ "/devtools/page/" ++ i in
      set_default "devtoolsFrontendUrl"
        ("/devtools/inspector.html?ws=" ++ devtools_url)
        (set_default "webSocketDebuggerUrl" ("ws://" ++ devtools_url) t1)
  end.

(** The [/json] and [/json/list] branch of [proxy_handler] from the parsed
    answer of the browser to the data of the response.  [None]: the Host
    header holds a backslash, and the replacement made of it is outside the
    embedding. *)
Definition rewrite_tabs (host : string) (data : list tab)
  : option (result (list tab)) :=
  match split_host host with
  | Raise e => Some (Raise e)
  | Ok (h, p) =>
      match to_plain h, to_plain p with
      | Some proxy_host, Some proxy_port =>
          Some (Ok (map (rewrite_tab proxy_host proxy_port) data))
      | _, _ => None
      end
  end.

(** No field of the tab, of the array, holds a match of the pattern. *)
Definition fields_match_free (t : tab) : bool :=
  forallb (fun kv => negb (has_match (devtools_pattern chrome_host chrome_port)
                                     (snd kv))) t.

Definition match_free (data : list tab) : bool :=
  forallb fields_match_free data.

(** The replacement made of the Host header cannot take part in a match. *)
Definition header_isolated (host : string) : bool :=
  match split_host host with
  | Raise _ => false
  | Ok (h, p) =>
      match to_plain h, to_plain p with
      | Some proxy_host, Some proxy_port =>
          isolated (devtools_pattern chrome_host chrome_port)
                   (template_text (replacement proxy_host proxy_port))
      | _, _ => false
      end
  end.

End Rewriting.

(** A tab whose urls, where they have to be synthesized, are made of an id
    without colon. *)
Definition synthesis_safe (t : tab) : bool :=
  match dict_get "id" t with
  | None => true
  | Some i =>
      match dict_get "webSocketDebuggerUrl" t, dict_get "devtoolsFrontendUrl" t with
      | Some _, Some _ => true
      | _, _ => negb (contains ":" i)
      end
  end.

End HttpProxy.

(** ** Concrete states used by the examples *)

Module Examples.

Import Json Broker.

(** The browser's host as given to [--chrome-host], and the two parts of a
    Host header. *)
Definition host_loopback : HttpProxy.hostname :=
  HttpProxy.mkHostname "127.0.0.1" eq_refl.

Definition host_remote : HttpProxy.hostname :=
  HttpProxy.mkHostname "10.0.0.2" eq_refl.

Definition name_example : HttpProxy.plain := HttpProxy.mkPlain "example" eq_refl.

Definition port_9222 : HttpProxy.plain := HttpProxy.mkPlain "9222" eq_refl.

Local Open Scope string_scope.

(** The application right after [init] with the default arguments:
    [--max-clients 2], [--chrome-host 127.0.0.1], [--chrome-port 12222]. *)
Definition app0 : app :=
  mkApp (IdCodec.mkParams 1 2 1073741823) 2 "127.0.0.1" 12222 [] [] 0 [].

(** The application right after [init] with [--max-clients 3]. *)
Definition app3 : app :=
  mkApp (IdCodec.mkParams 2 4 536870911) 4 "127.0.0.1" 12222 [] [] 0 [].

Definition all_open : ws -> bool := fun _ => false.

(** A request for the page [page] on client socket [w]; the dial of the
    browser, when one is made, gives socket 100. *)
Definition page_request (w : ws) (page : string) : request :=
  mkRequest w ("/devtools/page/" ++ page) all_open (Some 100%nat).

(** A codec for which every frame is the reply [{"id": 0x40000007}]. *)
Definition loads_reply : string -> option json :=
  fun _ => Some (JObj [("id", JNum 1073741831)]).

(** A codec for which every frame is the event [{"method": "Page.loaded"}]. *)
Definition loads_event : string -> option json :=
  fun _ => Some (JObj [("method", JStr "Page.loaded")]).

Definition dumps_any : json -> string := fun _ => "{}".

(** A codec for which every frame is the request
    [{"id": 7, "method": "Page.enable"}]. *)
Definition loads_request : string -> option json :=
  fun _ => Some (JObj [("id", JNum 7); ("method", JStr "Page.enable")]).

(** The application with one client, socket 1, on page A, and the browser
    socket 100 dialled for it. *)
Definition app1 : app :=
  mkApp (IdCodec.mkParams 1 2 1073741823) 2 "127.0.0.1" 12222
        [(1%nat, mkClient 0 "A")] [("A", Some 100%nat)] 1 ["A"].

Definition task1 : client_task := mkTask 1%nat "/devtools/page/A" 0.

(** The same with a second client, socket 2, on page A. *)
Definition app2 : app :=
  mkApp (IdCodec.mkParams 1 2 1073741823) 2 "127.0.0.1" 12222
        [(1%nat, mkClient 0 "A"); (2%nat, mkClient 1 "A")]
        [("A", Some 100%nat)] 1 ["A"].

Definition task2 : client_task := mkTask 2%nat "/devtools/page/A" 1.

(** A codec that reads the text [reply] as the reply
    [{"id": 0x40000007, "result": {}}] and any other text as the request
    [{"id": 7, "method": "Page.enable"}], and that writes an object as the
    decimal digits of its id. *)
Definition loads_both : string -> option json :=
  fun raw =>
    if String.eqb raw "reply"
    then Some (JObj [("id", JNum 1073741831); ("result", JObj [])])
    else Some (JObj [("id", JNum 7); ("method", JStr "Page.enable")]).

Definition dumps_id : json -> string :=
  fun data =>
    match data with
    | JObj fields =>
        match dict_get "id" fields with
        | Some (JNum n) => fmt_d n
        | _ => "?"
        end
    | _ => "?"
    end.

End Examples.

(** * Properties *)

(** ** IdCodec *)

Module IdCodecFacts.

Import IdCodec.

(** The split of the 31 bits that [main] fixes. *)
Lemma main_params_inv (n : Z) (p : params) :
  main_params n = Ok p ->
  0 < n /\
  bits_for_client_id p = Z.log2_up n /\
  max_clients p = 2 ^ bits_for_client_id p /\
  max_request_id p = 2 ^ (BITS - bits_for_client_id p) - 1.
Proof.
  unfold main_params, bits, bind.
  destruct (n <=? 0) eqn:Hn; [discriminate|].
  intros H; injection H as <-; cbn.
  apply Z.leb_gt in Hn. repeat split; trivial.
Qed.

Lemma main_params_bits (n : Z) (p : params) :
  1 <= n <= 2 ^ 31 ->
  main_params n = Ok p ->
  0 <= bits_for_client_id p <= 31.
Proof.
  intros Hn Hp.
  destruct (main_params_inv n p Hp) as (Hpos & Hb & _).
  rewrite Hb. split.
  - apply Z.log2_up_nonneg.
  - apply Z.log2_up_le_pow2; lia.
Qed.

Section Split.

(** [k] is the width of the request field, [BITS - bits_for_client_id]. *)
Variable k : Z.
Hypothesis k_nonneg : 0 <= k.

Lemma pow2k_pos : 0 < 2 ^ k.
Proof. apply Z.pow_pos_nonneg; lia. Qed.

Lemma mask_ones : 2 ^ k - 1 = Z.ones k.
Proof. rewrite Z.ones_equiv. lia. Qed.

Lemma shiftr_pack (c r : Z) :
  0 <= r < 2 ^ k ->
  Z.shiftr (Z.lor (Z.shiftl c k) r) k = c.
Proof.
  intros Hr.
  rewrite Z.shiftr_lor.
  rewrite Z.shiftr_shiftl_l by lia.
  rewrite Z.sub_diag, Z.shiftl_0_r.
  rewrite (Z.shiftr_div_pow2 r) by lia.
  rewrite Z.div_small by lia.
  apply Z.lor_0_r.
Qed.

Lemma land_pack (c r : Z) :
  0 <= r < 2 ^ k ->
  Z.land (Z.lor (Z.shiftl c k) r) (2 ^ k - 1) = r.
Proof.
  intros Hr.
  rewrite mask_ones, Z.land_lor_distr_l.
  rewrite !Z.land_ones by lia.
  rewrite Z.shiftl_mul_pow2 by lia.
  rewrite Z.mod_mul by (pose proof pow2k_pos; lia).
  rewrite Z.mod_small by lia.
  reflexivity.
Qed.

Lemma pack_unpack (e : Z) :
  Z.lor (Z.shiftl (Z.shiftr e k) k) (Z.land e (2 ^ k - 1)) = e.
Proof.
  rewrite mask_ones.
  rewrite <- Z.ldiff_ones_r by lia.
  apply Z.lor_ldiff_and.
Qed.

Lemma land_mask_range (e : Z) : 0 <= Z.land e (2 ^ k - 1) < 2 ^ k.
Proof.
  rewrite mask_ones, Z.land_ones by lia.
  apply Z.mod_pos_bound, pow2k_pos.
Qed.

(** With a request id that fits, [|] is the sum of the two fields. *)
Lemma pack_sum (c r : Z) :
  0 <= r < 2 ^ k ->
  Z.lor (Z.shiftl c k) r = c * 2 ^ k + r.
Proof.
  intros Hr.
  set (e := Z.lor (Z.shiftl c k) r).
  pose proof pow2k_pos as Hpos.
  rewrite (Z.div_mod e (2 ^ k)) by lia.
  rewrite <- Z.shiftr_div_pow2, <- Z.land_ones by lia.
  rewrite <- mask_ones.
  unfold e. rewrite shiftr_pack, land_pack by assumption.
  lia.
Qed.

End Split.

Ltac unfold_codec :=
  unfold encode_id, decode_id, encode_id_raw, decode_id_raw, BITS in *.

(** The codec on any width [0 <= B <= 31] of the client field. *)
Lemma decode_encode_raw (B c r : Z) :
  0 <= B <= 31 ->
  0 <= r < 2 ^ (31 - B) ->
  (e <- encode_id_raw c r (2 ^ (31 - B) - 1) B ;;
   decode_id_raw e (2 ^ (31 - B) - 1) B) = Ok (c, r).
Proof.
  intros HB Hr. unfold_codec.
  destruct (r >? 2 ^ (31 - B) - 1) eqn:Hgt; [lia|].
  destruct (31 - B <? 0) eqn:Hneg; [lia|].
  cbv beta iota delta [bind].
  rewrite shiftr_pack, land_pack by lia.
  reflexivity.
Qed.

(** C1: for the parameters [main] derives from [--max-clients] (at most
    2^31, so that the client field fits the 31 bits), every client id below
    2^B and every request id below 2^(31-B) come back unchanged from
    decoding their encoding. *)
Theorem decode_encode (n : Z) (p : params) (c r : Z) :
  1 <= n <= 2 ^ 31 ->
  main_params n = Ok p ->
  0 <= c < 2 ^ bits_for_client_id p ->
  0 <= r < 2 ^ (31 - bits_for_client_id p) ->
  (e <- encode_id p c r ;; decode_id p e) = Ok (c, r).
Proof.
  intros Hn Hp _ Hr.
  pose proof (main_params_bits n p Hn Hp) as HB.
  destruct (main_params_inv n p Hp) as (_ & _ & _ & Hmax).
  unfold encode_id, decode_id. rewrite Hmax. unfold BITS.
  apply decode_encode_raw; assumption.
Qed.

Lemma decode_encode_witness :
  (e <- encode_id (mkParams 2 4 536870911) 3 5 ;;
   decode_id (mkParams 2 4 536870911) e) = Ok (3, 5).
Proof.
  apply (decode_encode 4 (mkParams 2 4 536870911) 3 5);
    [ cbn; lia | reflexivity | cbn; lia | cbn; lia ].
Defined.

(** C2: [encode_id] raises [OverflowError] exactly when the request id is
    at least 2^(31-B), that is, above [max_request_id], whatever the client
    id. *)
Theorem encode_overflow_iff (n : Z) (p : params) (c r : Z) :
  1 <= n <= 2 ^ 31 ->
  main_params n = Ok p ->
  encode_id p c r = Raise OverflowError <->
  r >= 2 ^ (31 - bits_for_client_id p).
Proof.
  intros Hn Hp.
  pose proof (main_params_bits n p Hn Hp) as HB.
  destruct (main_params_inv n p Hp) as (_ & _ & _ & Hmax).
  unfold_codec. rewrite Hmax.
  destruct (r >? 2 ^ (31 - bits_for_client_id p) - 1) eqn:Hgt.
  - split; [lia | reflexivity].
  - destruct (31 - bits_for_client_id p <? 0) eqn:Hneg; [lia|].
    split; [discriminate | lia].
Qed.

Lemma encode_overflow_iff_witness :
  encode_id (mkParams 2 4 536870911) 0 (2 ^ 29) = Raise OverflowError <->
  2 ^ 29 >= 2 ^ (31 - 2).
Proof.
  apply (encode_overflow_iff 4 (mkParams 2 4 536870911) 0 (2 ^ 29));
    [ cbn; lia | reflexivity ].
Defined.

(** C9: for a client id below 2^B and a request id of at most
    [max_request_id], the encoded id is a non-negative integer below 2^31. *)
Theorem encode_range (n : Z) (p : params) (c r : Z) :
  1 <= n <= 2 ^ 31 ->
  main_params n = Ok p ->
  0 <= c < 2 ^ bits_for_client_id p ->
  0 <= r <= max_request_id p ->
  exists e, encode_id p c r = Ok e /\ 0 <= e < 2 ^ 31.
Proof.
  intros Hn Hp Hc Hr.
  pose proof (main_params_bits n p Hn Hp) as HB.
  destruct (main_params_inv n p Hp) as (_ & _ & _ & Hmax).
  unfold BITS in Hmax.
  unfold_codec. rewrite Hmax in *.
  set (B := bits_for_client_id p) in *.
  destruct (r >? 2 ^ (31 - B) - 1) eqn:Hgt; [lia|].
  destruct (31 - B <? 0) eqn:Hneg; [lia|].
  eexists; split; [reflexivity|].
  rewrite pack_sum by lia.
  assert (Hpow : 2 ^ 31 = 2 ^ B * 2 ^ (31 - B)).
  { rewrite <- Z.pow_add_r by lia. f_equal. lia. }
  assert (0 < 2 ^ (31 - B)) by (apply Z.pow_pos_nonneg; lia).
  rewrite Hpow. nia.
Qed.

Lemma encode_range_witness :
  exists e, encode_id (mkParams 2 4 536870911) 3 536870911 = Ok e /\ 0 <= e < 2 ^ 31.
Proof.
  apply (encode_range 4 (mkParams 2 4 536870911) 3 536870911);
    [ cbn; lia | reflexivity | cbn; lia | cbn; lia ].
Defined.

(** C10: every value [0 <= e < 2^31] decodes without error into a client id
    and a request id of at most [max_request_id], and encoding that pair
    gives [e] back, whether or not a client ever produced [e]. *)
Theorem encode_decode (n : Z) (p : params) (e : Z) :
  1 <= n <= 2 ^ 31 ->
  main_params n = Ok p ->
  0 <= e < 2 ^ 31 ->
  exists c r,
    decode_id p e = Ok (c, r) /\
    0 <= r <= max_request_id p /\
    encode_id p c r = Ok e.
Proof.
  intros Hn Hp He.
  pose proof (main_params_bits n p Hn Hp) as HB.
  destruct (main_params_inv n p Hp) as (_ & _ & _ & Hmax).
  unfold BITS in Hmax.
  unfold_codec. rewrite Hmax.
  set (B := bits_for_client_id p) in *.
  destruct (31 - B <? 0) eqn:Hneg; [lia|].
  eexists; eexists; split; [reflexivity|].
  pose proof (land_mask_range (31 - B) ltac:(lia) e) as Hm.
  split; [lia|].
  destruct (Z.land e (2 ^ (31 - B) - 1) >? 2 ^ (31 - B) - 1) eqn:Hgt; [lia|].
  rewrite pack_unpack by lia.
  reflexivity.
Qed.

Lemma encode_decode_witness :
  exists c r,
    decode_id (mkParams 1 2 1073741823) 1073741831 = Ok (c, r) /\
    0 <= r <= 1073741823 /\
    encode_id (mkParams 1 2 1073741823) c r = Ok 1073741831.
Proof.
  apply (encode_decode 2 (mkParams 1 2 1073741823) 1073741831);
    [ cbn; lia | reflexivity | cbn; lia ].
Defined.

End IdCodecFacts.

(** ** PageBroker *)

Module BrokerFacts.

Import Json Broker.

Local Open Scope string_scope.

(** *** What the handlers leave alone *)

Lemma ws_handler_clients (a : app) (path_qs : string) :
  clients (fst (ws_handler a path_qs)) = clients a /\
  max_clients (fst (ws_handler a path_qs)) = max_clients a.
Proof.
  unfold ws_handler.
  destruct (dict_get (last_segment path_qs) (tabs a)); split; reflexivity.
Qed.

Lemma ws_handler_events (a : app) (path_qs : string) :
  sent (snd (ws_handler a path_qs)) = [].
Proof.
  unfold ws_handler.
  destruct (dict_get (last_segment path_qs) (tabs a)); reflexivity.
Qed.

(** The capacity check of [client_prepared], and what registration adds. *)
Lemma client_prepared_refused (closed : ws -> bool) (a : app) (t : client_task) :
  max_clients a <= ct_client_id t ->
  client_prepared closed a t =
    (a, ([Print (client_prefix (ct_client_id t) ++ " CONNECTION FAILED")],
         Ok Returned)).
Proof.
  intros Hfull. unfold client_prepared.
  destruct (ct_client_id t >=? max_clients a)%Z eqn:Hge; [reflexivity | lia].
Qed.

Lemma client_prepared_registered (closed : ws -> bool) (a : app) (t : client_task) :
  ct_client_id t < max_clients a ->
  clients (fst (client_prepared closed a t)) =
    (clients a ++ [(ct_ws t, mkClient (ct_client_id t) (ct_tab_id t))])%list /\
  max_clients (fst (client_prepared closed a t)) = max_clients a.
Proof.
  intros Hroom. unfold client_prepared.
  destruct (ct_client_id t >=? max_clients a)%Z eqn:Hge; [lia|].
  destruct (upstream_missing _ _ _) as [[|]|]; split; reflexivity.
Qed.

Lemma client_connected_clients (a : app) (t : client_task) (r : option ws) :
  clients (fst (client_connected a t r)) = clients a /\
  max_clients (fst (client_connected a t r)) = max_clients a.
Proof.
  unfold client_connected. destruct r; [|split; reflexivity].
  destruct (dict_get (ct_tab_id t) (tabs a)); split; reflexivity.
Qed.

(** *** Attaching *)

Lemma attach_refused (closed : ws -> bool) (a : app) (w : ws) (path_qs : string)
  (dial : option ws) :
  max_clients a <= Z.of_nat (List.length (clients a)) ->
  attach closed a w path_qs dial =
    (fst (ws_handler a path_qs),
     ((snd (ws_handler a path_qs) ++
       [Prepare w;
        Print (client_prefix (Z.of_nat (List.length (clients a)))
               ++ " CONNECTION FAILED")])%list,
      Ok Returned)).
Proof.
  intros Hfull. unfold attach.
  destruct (ws_handler_clients a path_qs) as [Hc Hm].
  destruct (ws_handler a path_qs) as [a0 es0]; cbn [fst snd] in *.
  unfold client_begin.
  rewrite client_prepared_refused by (cbn; rewrite Hc, Hm; exact Hfull).
  cbn. rewrite Hc. reflexivity.
Qed.

Lemma attach_registered (closed : ws -> bool) (a : app) (w : ws) (path_qs : string)
  (dial : option ws) :
  Z.of_nat (List.length (clients a)) < max_clients a ->
  clients (fst (attach closed a w path_qs dial)) =
    (clients a ++
     [(w, mkClient (Z.of_nat (List.length (clients a))) (last_segment path_qs))])%list /\
  max_clients (fst (attach closed a w path_qs dial)) = max_clients a.
Proof.
  intros Hroom. unfold attach.
  destruct (ws_handler_clients a path_qs) as [Hc Hm].
  destruct (ws_handler a path_qs) as [a0 es0]; cbn [fst snd] in *.
  unfold client_begin.
  set (t := mkTask w path_qs (Z.of_nat (List.length (clients a0)))).
  assert (Ht : ct_client_id t < max_clients a0) by (cbn; rewrite Hc, Hm; exact Hroom).
  destruct (client_prepared_registered closed a0 t Ht) as [Hc1 Hm1].
  destruct (client_prepared closed a0 t) as [a1 [es2 r]]; cbn [fst snd] in *.
  assert (Hgoal :
    clients a1 =
      (clients a ++ [(w, mkClient (Z.of_nat (List.length (clients a)))
                                  (last_segment path_qs))])%list /\
    max_clients a1 = max_clients a).
  { rewrite Hc1, Hm1, Hm. subst t. unfold ct_tab_id. cbn. rewrite Hc.
    split; reflexivity. }
  destruct r as [[ | url | ] | e]; try exact Hgoal.
  destruct (client_connected_clients a1 t dial) as [Hc2 Hm2].
  destruct (client_connected a1 t dial) as [a2 [es3 r3]]; cbn [fst snd] in *.
  rewrite Hc2, Hm2. exact Hgoal.
Qed.

Lemma clients_of_tab_length (t : string) (cs : list (ws * client)) :
  (List.length (clients_of_tab t cs) <= List.length cs)%nat.
Proof. apply filter_length_le. Qed.

(** C4, amended: the handler reads its client id when it starts, as the
    size of the one table of the process (the clients of all pages), and
    after the handshake ([prepare]) it refuses exactly when that id is at
    least [app['max_clients']], which is [--max-clients] rounded up to a
    power of two.  A refused attach prints CONNECTION FAILED and returns:
    the table is as before and no frame is sent.  Below the capacity the
    client is registered.  This holds for a handler that runs alone and, for
    the part after [prepare], whenever the id was read. *)
Theorem attach_refused_at_capacity (closed : ws -> bool) (a : app) (w : ws)
  (path_qs : string) (dial : option ws) :
  let n := Z.of_nat (List.length (clients a)) in
  let r := attach closed a w path_qs dial in
  (max_clients a <= n ->
   clients (fst r) = clients a /\
   events (snd r) =
     (snd (ws_handler a path_qs) ++
      [Prepare w; Print (client_prefix n ++ " CONNECTION FAILED")])%list /\
   outcome (snd r) = Ok Returned /\
   sent (events (snd r)) = []) /\
  (n < max_clients a ->
   clients (fst r) =
     (clients a ++ [(w, mkClient n (last_segment path_qs))])%list) /\
  (forall t : client_task,
      (max_clients a <= ct_client_id t ->
       client_prepared closed a t =
         (a, ([Print (client_prefix (ct_client_id t) ++ " CONNECTION FAILED")],
              Ok Returned))) /\
      (ct_client_id t < max_clients a ->
       clients (fst (client_prepared closed a t)) =
         (clients a ++
          [(ct_ws t, mkClient (ct_client_id t) (ct_tab_id t))])%list)) /\
  (forall (arg : Z) (host : string) (port : Z) (a0 : app),
      1 <= arg <= 2 ^ 31 ->
      init arg host port = Ok a0 ->
      clients a0 = [] /\
      arg <= max_clients a0 < 2 * arg /\
      max_clients a0 = 2 ^ Z.log2_up arg).
Proof.
  intros n r. subst n r. split; [|split; [|split]].
  - intros Hfull. rewrite attach_refused by exact Hfull.
    cbn [fst snd events outcome].
    split; [apply ws_handler_clients|]. split; [reflexivity|].
    split; [reflexivity|].
    unfold ws_handler.
    destruct (dict_get (last_segment path_qs) (tabs a)); reflexivity.
  - intros Hroom. apply (attach_registered closed a w path_qs dial Hroom).
  - intros t. split.
    + apply client_prepared_refused.
    + intros Hroom. apply (client_prepared_registered closed a t Hroom).
  - intros arg host port a0 Harg Hinit. unfold init, bind in Hinit.
    destruct (IdCodec.main_params arg) as [p|e] eqn:Hp; [|discriminate].
    injection Hinit as <-. cbn [clients max_clients].
    destruct (IdCodecFacts.main_params_inv arg p Hp) as (_ & Hb & Hcap & _).
    rewrite Hcap, Hb. split; [reflexivity|]. split; [|reflexivity].
    destruct (Z.eq_dec arg 1) as [->|Hne]; [cbn; lia|].
    pose proof (Z.log2_up_spec arg ltac:(lia)) as [Hlo Hhi].
    split; [exact Hhi|].
    replace (Z.log2_up arg) with (Z.succ (Z.pred (Z.log2_up arg))) by lia.
    rewrite Z.pow_succ_r; [lia|].
    pose proof (Z.log2_up_pos arg ltac:(lia)). lia.
Qed.

Lemma attach_refused_at_capacity_witness :
  let a := attach_all Examples.app0
             [Examples.page_request 1%nat "A"; Examples.page_request 2%nat "B"] in
  let r := attach Examples.all_open a 3%nat "/devtools/page/A" (Some 100%nat) in
  clients (fst r) = clients a /\
  events (snd r) = [Prepare 3%nat; Print "[CLIENT 2] CONNECTION FAILED"] /\
  outcome (snd r) = Ok Returned /\
  sent (events (snd r)) = [].
Proof.
  destruct (attach_refused_at_capacity Examples.all_open
              (attach_all Examples.app0
                 [Examples.page_request 1%nat "A"; Examples.page_request 2%nat "B"])
              3%nat "/devtools/page/A" (Some 100%nat)) as [Hfull _].
  apply Hfull. cbn. lia.
Defined.

(** C4 as stated fails: with [--max-clients 3] the capacity stored is 4.
    A page that holds three clients, the configured limit, gets a fourth:
    the handler prints CONNECTED, registers it under id 3 and goes to its
    read loop. *)
Lemma attach_at_configured_limit_counterexample :
  init 3 "127.0.0.1" 12222 = Ok Examples.app3 /\
  let a := attach_all Examples.app3
             [Examples.page_request 1%nat "A"; Examples.page_request 2%nat "A";
              Examples.page_request 3%nat "A"] in
  let r := attach Examples.all_open a 4%nat "/devtools/page/A" None in
  List.length (clients_of_tab "A" (clients a)) = 3%nat /\
  outcome (snd r) = Ok Reading /\
  events (snd r) = [Prepare 4%nat; Print "[CLIENT 3] CONNECTED"] /\
  clients_of_tab "A" (clients (fst r)) =
    [(1%nat, mkClient 0 "A"); (2%nat, mkClient 1 "A"); (3%nat, mkClient 2 "A");
     (4%nat, mkClient 3 "A")].
Proof.
  split; [reflexivity|]. split; [reflexivity|]. split; [reflexivity|].
  split; reflexivity.
Qed.

(** *** Client ids *)

Lemma ids_app (cs cs' : list (ws * client)) :
  ids (cs ++ cs') = (ids cs ++ ids cs')%list.
Proof. apply map_app. Qed.

Lemma ids_length (cs : list (ws * client)) : List.length (ids cs) = List.length cs.
Proof. apply length_map. Qed.

(** Attaching one request after the other numbers the clients of the whole
    process from the size the table had. *)
Lemma attach_all_ids (rs : list request) :
  forall (a : app) (n0 : nat),
    ids (clients a) = map Z.of_nat (seq 0 n0) ->
    Z.of_nat (n0 + List.length rs) <= max_clients a ->
    ids (clients (attach_all a rs)) = map Z.of_nat (seq 0 (n0 + List.length rs)).
Proof.
  induction rs as [|r rest IH]; intros a n0 Hids Hcap; cbn [attach_all List.length].
  - rewrite Nat.add_0_r. exact Hids.
  - assert (Hlen : List.length (clients a) = n0).
    { rewrite <- ids_length, Hids, length_map, length_seq. reflexivity. }
    cbn [List.length] in Hcap.
    destruct (attach_registered (rq_closed r) a (rq_ws r) (rq_path_qs r) (rq_dial r))
      as [Hc Hm]; [lia|].
    replace (n0 + S (List.length rest))%nat with (S n0 + List.length rest)%nat by lia.
    apply IH.
    + rewrite Hc, ids_app, Hids, Hlen. cbn [ids map snd id].
      rewrite seq_S, map_app. reflexivity.
    + rewrite Hm. lia.
Qed.

Lemma attach_all_clients (rs : list request) :
  forall a : app,
    Z.of_nat (List.length (clients a) + List.length rs) <= max_clients a ->
    clients (attach_all a rs) =
    (clients a ++
     map (fun ir => (rq_ws (snd ir),
                     mkClient (Z.of_nat (fst ir)) (last_segment (rq_path_qs (snd ir)))))
         (combine (seq (List.length (clients a)) (List.length rs)) rs))%list.
Proof.
  induction rs as [|r rest IH]; intros a Hcap; cbn [attach_all List.length].
  - cbn. rewrite app_nil_r. reflexivity.
  - cbn [List.length] in Hcap.
    destruct (attach_registered (rq_closed r) a (rq_ws r) (rq_path_qs r) (rq_dial r))
      as [Hc Hm]; [lia|].
    rewrite IH by (rewrite Hm, Hc, length_app; cbn [List.length]; lia).
    rewrite Hc, length_app, <- app_assoc. cbn [List.length seq combine map fst snd].
    rewrite Nat.add_1_r. reflexivity.
Qed.

(** C5, amended: the id given to an attaching client is the size of the one
    table of the process, which holds the clients of every page.  So when
    K <= max_clients requests, for whatever pages, are attached one after
    the other to an empty table, the ids issued are 0, 1, ..., K-1 in that
    order: the table lists the socket of the i-th request under the id i,
    with the page of that request. *)
Theorem client_ids_in_order (a : app) (rs : list request) :
  clients a = [] ->
  Z.of_nat (List.length rs) <= max_clients a ->
  ids (clients (attach_all a rs)) = map Z.of_nat (seq 0 (List.length rs)) /\
  clients (attach_all a rs) =
    map (fun ir => (rq_ws (snd ir),
                    mkClient (Z.of_nat (fst ir)) (last_segment (rq_path_qs (snd ir)))))
        (combine (seq 0 (List.length rs)) rs).
Proof.
  intros Hempty Hcap. split.
  - apply (attach_all_ids rs a 0%nat).
    + rewrite Hempty. reflexivity.
    + exact Hcap.
  - rewrite attach_all_clients by (rewrite Hempty; cbn; lia).
    rewrite Hempty. reflexivity.
Qed.

Lemma client_ids_in_order_witness :
  ids (clients (attach_all Examples.app0
                  [Examples.page_request 1%nat "B"; Examples.page_request 2%nat "A"]))
  = [0; 1] /\
  clients (attach_all Examples.app0
             [Examples.page_request 1%nat "B"; Examples.page_request 2%nat "A"])
  = [(1%nat, mkClient 0 "B"); (2%nat, mkClient 1 "A")].
Proof.
  apply (client_ids_in_order Examples.app0
           [Examples.page_request 1%nat "B"; Examples.page_request 2%nat "A"]);
    [ reflexivity | cbn; lia ].
Defined.

(** C5 as stated fails: with the default [--max-clients 2], a client
    attached to page B and then one attached to page A leave page A with one
    client, whose id is 1 and not 0. *)
Lemma client_ids_per_page_counterexample :
  let a := attach_all Examples.app0
             [Examples.page_request 1%nat "B"; Examples.page_request 2%nat "A"] in
  clients_of_tab "A" (clients a) = [(2%nat, mkClient 1 "A")] /\
  ids (clients_of_tab "A" (clients a)) <> map Z.of_nat (seq 0 1).
Proof.
  split; [reflexivity | discriminate].
Qed.

(** Why "one after the other": two handlers that both start before either
    is back from [prepare] read the same size and register under the same
    id. *)
Remark interleaved_attach_same_id :
  let t1 := fst (client_begin Examples.app0 1%nat "/devtools/page/A") in
  let t2 := fst (client_begin Examples.app0 2%nat "/devtools/page/A") in
  let a0 := fst (ws_handler Examples.app0 "/devtools/page/A") in
  let a1 := fst (client_prepared Examples.all_open a0 t1) in
  let a2 := fst (client_prepared Examples.all_open a1 t2) in
  ids (clients a2) = [0; 0].
Proof. reflexivity. Qed.

(** *** Events of a computation *)

Lemma sent_app (es es' : list event) :
  sent (es ++ es') = (sent es ++ sent es')%list.
Proof.
  induction es as [|e es IH]; [reflexivity|].
  destruct e; cbn; rewrite ?IH; reflexivity.
Qed.

Lemma mbind_ok {A B : Type} (es : list event) (x : A) (k : A -> M B) :
  mbind (es, Ok x) k = ((es ++ events (k x))%list, outcome (k x)).
Proof. unfold mbind, events, outcome. destruct (k x); reflexivity. Qed.

Lemma mbind_raise {A B : Type} (es : list event) (e : exn) (k : A -> M B) :
  mbind (es, Raise e) k = (es, Raise e).
Proof. reflexivity. Qed.

(** Run the steps of a computation whose results are known. *)
Ltac run_m :=
  repeat (first [rewrite mbind_ok | rewrite mbind_raise];
          cbn [fst snd events outcome List.app]).

(** *** Looking a client up *)

Lemma find_client_in (c : Z) (cs : list (ws * client)) (w : ws) :
  next_client c cs = Ok w ->
  exists cl, In (w, cl) cs /\ id cl = c.
Proof.
  unfold next_client.
  destruct (find _ cs) as [[w' cl]|] eqn:Hfind; [|discriminate].
  intros H; injection H as <-.
  apply find_some in Hfind. destruct Hfind as [Hin Heq].
  exists cl. split; [exact Hin | apply Z.eqb_eq; exact Heq].
Qed.

Lemma find_client_none (c : Z) (cs : list (ws * client)) :
  (forall kv, In kv cs -> id (snd kv) <> c) ->
  next_client c cs = Raise StopIteration.
Proof.
  intros Hnone. unfold next_client.
  destruct (find _ cs) as [kv|] eqn:Hfind; [|reflexivity].
  apply find_some in Hfind. destruct Hfind as [Hin Heq].
  apply Z.eqb_eq in Heq. elim (Hnone kv Hin Heq).
Qed.

Lemma ids_in (cs : list (ws * client)) (w : ws) (cl : client) :
  In (w, cl) cs -> In (id cl) (ids cs).
Proof. intros Hin. apply (in_map (fun kv => id (snd kv)) cs (w, cl) Hin). Qed.

(** With distinct ids, the id names the entry. *)
Lemma ids_nodup_unique (cs : list (ws * client)) :
  NoDup (ids cs) ->
  forall w w' cl cl',
    In (w, cl) cs -> In (w', cl') cs -> id cl = id cl' -> (w, cl) = (w', cl').
Proof.
  induction cs as [|[w0 c0] rest IH]; intros Hnd w w' cl cl' Hin Hin' Hid.
  - destruct Hin.
  - cbn in Hnd. inversion Hnd as [|x l Hnotin Hnd']; subst.
    destruct Hin as [Heq|Hin], Hin' as [Heq'|Hin'].
    + congruence.
    + injection Heq as -> ->. elim Hnotin. rewrite Hid. eapply ids_in; eassumption.
    + injection Heq' as -> ->. elim Hnotin. rewrite <- Hid. eapply ids_in; eassumption.
    + eapply IH; eassumption.
Qed.

Section WithCodec.

Variable loads : string -> option json.
Variable dumps : json -> string.

Lemma client_on_msg_app (closed : ws -> bool) (a : app) (t : client_task) (m : msg) :
  fst (client_on_msg loads dumps closed a t m) = a.
Proof.
  unfold client_on_msg. destruct m; [|reflexivity].
  destruct (dict_get (ct_tab_id t) (tabs a)) as [[up|]|]; try reflexivity.
  destruct (closed up); reflexivity.
Qed.

Lemma browser_on_msg_app (closed : ws -> bool) (a : app) (t : string) (m : msg) :
  fst (browser_on_msg loads dumps closed a t m) = a.
Proof. destruct m; reflexivity. Qed.

Lemma and_then_app (x : app * M status) (k : app -> app * M status) :
  (forall a, fst (k a) = a) ->
  fst (and_then x k) = fst x.
Proof.
  intros Hk. destruct x as [a [es [[ | url | ] | e]]]; try reflexivity.
  cbn. specialize (Hk a). destruct (k a) as [a' [es' r]]. exact Hk.
Qed.

(** The read loop never touches the application, however it ends. *)
Lemma client_loop_app (a : app) (t : client_task) (ms : list arrival) :
  fst (client_loop loads dumps a t ms) = a.
Proof.
  revert a. induction ms as [|[closed m] rest IH]; intros a; cbn [client_loop].
  - reflexivity.
  - rewrite and_then_app by exact IH. apply client_on_msg_app.
Qed.

(** *** Events from the browser *)

Lemma fan_out_sent (closed : ws -> bool) (raw : string) (cs : list (ws * client)) :
  outcome (fan_out closed raw cs) = Ok tt /\
  sent (events (fan_out closed raw cs)) =
    map (fun kv => (fst kv, raw)) (filter (fun kv => negb (closed (fst kv))) cs).
Proof.
  induction cs as [|[w c] rest [IHo IHs]]; [split; reflexivity|].
  cbn [fan_out filter fst].
  destruct (closed w); cbn [negb].
  - unfold ret. run_m. split; assumption.
  - unfold emit. run_m. cbn [map sent]. rewrite IHo, IHs. split; reflexivity.
Qed.

(** C6: a text frame from the browser whose JSON object has no [id] (or a
    null one) is sent, as the very text received, to each client registered
    for that page whose socket is not closed, once each and in the order of
    registration, and to no other socket; the handler raises nothing and
    the application is unchanged. *)
Theorem event_fan_out (closed : ws -> bool) (a : app) (t raw : string)
  (data : json) :
  loads raw = Some data ->
  get data "id" = Ok None ->
  let r := browser_on_msg loads dumps closed a t (Text raw) in
  fst r = a /\
  outcome (snd r) = Ok tt /\
  sent (events (snd r)) =
    map (fun kv => (fst kv, raw)) (open_clients_of_tab closed t (clients a)) /\
  (forall w text,
      In (w, text) (sent (events (snd r))) <->
      text = raw /\
      exists c, In (w, c) (clients a) /\ tab_id c = t /\ closed w = false).
Proof.
  intros Hloads Hget r.
  assert (Hr : snd r = fan_out closed raw (clients_of_tab t (clients a))).
  { subst r. cbn [browser_on_msg snd]. unfold msg_json. rewrite Hloads.
    unfold ret, lift. run_m. rewrite Hget. run_m.
    destruct (fan_out closed raw (clients_of_tab t (clients a))); reflexivity. }
  destruct (fan_out_sent closed raw (clients_of_tab t (clients a))) as [Ho Hs].
  rewrite Hr. split; [subst r; reflexivity|]. split; [exact Ho|].
  split; [exact Hs|].
  intros w text. rewrite Hs. split.
  - intros Hin. apply in_map_iff in Hin. destruct Hin as [[w' c] [Heq Hin]].
    cbn in Heq. injection Heq as -> ->.
    apply filter_In in Hin. destruct Hin as [Hin Hopen]. cbn in Hopen.
    apply filter_In in Hin. destruct Hin as [Hin Htab]. cbn in Htab.
    split; [reflexivity|]. exists c. repeat split.
    + exact Hin.
    + apply String.eqb_eq. exact Htab.
    + destruct (closed w); [discriminate | reflexivity].
  - intros [-> [c [Hin [Htab Hopen]]]].
    apply in_map_iff. exists (w, c). split; [reflexivity|].
    apply filter_In. split.
    + apply filter_In. split; [exact Hin|]. cbn. apply String.eqb_eq. exact Htab.
    + cbn. rewrite Hopen. reflexivity.
Qed.

(** What [browser_on_msg] does with a reply, step by step. *)
Lemma browser_on_msg_reply (closed : ws -> bool) (a : app) (t raw : string)
  (fields : list (string * json)) (e c r : Z) :
  loads raw = Some (JObj fields) ->
  dict_get "id" fields = Some (JNum e) ->
  IdCodec.decode_id (f a) e = Ok (c, r) ->
  snd (browser_on_msg loads dumps closed a t (Text raw)) =
    mbind ([PrintData (client_prefix c ++ " <<") (JObj fields)],
           next_client c (clients a))
          (fun w => send_json dumps closed w
                      (JObj (dict_set "id" (JNum r) fields))).
Proof.
  intros Hloads Hid Hdec. cbn [browser_on_msg snd]. unfold msg_json.
  rewrite Hloads. unfold ret, lift. run_m. cbn [get]. rewrite Hid. run_m.
  cbn [as_int]. run_m. rewrite Hdec. run_m.
  unfold emit. run_m. cbn [assign]. run_m.
  destruct (next_client c (clients a)) as [w|ex]; run_m; reflexivity.
Qed.

(** The lookup returns the socket of the first entry with the id. *)
Lemma next_client_first (c : Z) (pre post : list (ws * client)) (w : ws)
  (cl : client) :
  id cl = c ->
  (forall kv, In kv pre -> id (snd kv) <> c) ->
  next_client c (pre ++ (w, cl) :: post) = Ok w.
Proof.
  intros Hid Hpre. unfold next_client.
  induction pre as [|kv pre IH]; cbn [List.app find snd].
  - rewrite Hid, Z.eqb_refl. reflexivity.
  - destruct (id (snd kv) =? c)%Z eqn:Heq.
    + apply Z.eqb_eq in Heq. elim (Hpre kv (or_introl eq_refl) Heq).
    + apply IH. intros kv' Hin. apply Hpre. right. exact Hin.
Qed.

(** The reply sent to the socket the lookup has found. *)
Lemma reply_to_found (closed : ws -> bool) (c r : Z) (w : ws)
  (fields : list (string * json)) :
  let m := mbind ([PrintData (client_prefix c ++ " <<") (JObj fields)], Ok w)
                 (fun w => send_json dumps closed w
                             (JObj (dict_set "id" (JNum r) fields))) in
  (closed w = false ->
   outcome m = Ok tt /\
   sent (events m) = [(w, dumps (JObj (dict_set "id" (JNum r) fields)))]) /\
  (closed w = true -> outcome m = Raise RuntimeError /\ sent (events m) = []).
Proof.
  cbn zeta. unfold send_json. split; intros Hw; rewrite mbind_ok, Hw;
    split; reflexivity.
Qed.

(** C3, amended: a text frame from the browser whose JSON object has a
    numeric [id] is decoded into a client id and a request id.  When a
    client is registered under that client id, the first such entry of the
    table is the addressee (the only one when the ids in the table are
    distinct): if its socket is open, the object with [id] set to the
    request id is serialised and sent to it and to no other socket; if its
    socket is closed, the send raises and nothing is sent.  When no client
    is registered under the id, [next] raises [StopIteration]: nothing is
    sent and the application is unchanged, but the reply is not dropped
    silently. *)
Theorem reply_routing (closed : ws -> bool) (a : app) (t raw : string)
  (data : json) (e c r : Z) :
  loads raw = Some data ->
  get data "id" = Ok (Some (JNum e)) ->
  IdCodec.decode_id (f a) e = Ok (c, r) ->
  let res := browser_on_msg loads dumps closed a t (Text raw) in
  fst res = a /\
  (forall pre w cl post,
      clients a = (pre ++ (w, cl) :: post)%list ->
      id cl = c ->
      (forall kv, In kv pre -> id (snd kv) <> c) ->
      (closed w = false ->
       outcome (snd res) = Ok tt /\
       exists data',
         assign data "id" (JNum r) = Ok data' /\
         sent (events (snd res)) = [(w, dumps data')]) /\
      (closed w = true ->
       outcome (snd res) = Raise RuntimeError /\ sent (events (snd res)) = [])) /\
  (NoDup (ids (clients a)) ->
   forall w cl,
     In (w, cl) (clients a) ->
     id cl = c ->
     (closed w = false ->
      outcome (snd res) = Ok tt /\
      exists data',
        assign data "id" (JNum r) = Ok data' /\
        sent (events (snd res)) = [(w, dumps data')]) /\
     (closed w = true ->
      outcome (snd res) = Raise RuntimeError /\ sent (events (snd res)) = [])) /\
  ((forall kv, In kv (clients a) -> id (snd kv) <> c) ->
   outcome (snd res) = Raise StopIteration /\
   sent (events (snd res)) = []).
Proof.
  intros Hloads Hget Hdec res.
  destruct data as [ | | | | | fields]; try discriminate Hget.
  assert (Hid : dict_get "id" fields = Some (JNum e)).
  { cbn [get] in Hget. destruct (dict_get "id" fields) as [[ | | | | | ]|];
      try discriminate Hget; injection Hget as Hget; congruence. }
  pose proof (browser_on_msg_reply closed a t raw fields e c r Hloads Hid Hdec)
    as Hres. fold res in Hres.
  assert (Hfirst : forall pre w cl post,
    clients a = (pre ++ (w, cl) :: post)%list ->
    id cl = c ->
    (forall kv, In kv pre -> id (snd kv) <> c) ->
    (closed w = false ->
     outcome (snd res) = Ok tt /\
     exists data',
       assign (JObj fields) "id" (JNum r) = Ok data' /\
       sent (events (snd res)) = [(w, dumps data')]) /\
    (closed w = true ->
     outcome (snd res) = Raise RuntimeError /\ sent (events (snd res)) = [])).
  { intros pre w cl post Hsplit Hcl Hpre.
    rewrite Hres, Hsplit, (next_client_first c pre post w cl Hcl Hpre).
    destruct (reply_to_found closed c r w fields) as [Hopen Hclosed].
    split; [|exact Hclosed].
    intros Hw. destruct (Hopen Hw) as [Ho Hs]. split; [exact Ho|].
    eexists. split; [reflexivity | exact Hs]. }
  split; [reflexivity|]. split; [exact Hfirst|]. split.
  - intros Hnd w cl Hin Hcl.
    destruct (in_split _ _ Hin) as [pre [post Hsplit]].
    apply (Hfirst pre w cl post Hsplit Hcl).
    intros [w' cl'] Hin' Heq. cbn [snd] in Heq.
    assert (Hsame : (w', cl') = (w, cl)).
    { apply (ids_nodup_unique (clients a) Hnd); [|exact Hin|congruence].
      rewrite Hsplit. apply in_or_app. left. exact Hin'. }
    injection Hsame as -> ->.
    rewrite Hsplit in Hnd. unfold ids in Hnd. rewrite map_app in Hnd.
    cbn [map snd] in Hnd. apply NoDup_remove_2 in Hnd. apply Hnd.
    apply in_or_app. left. apply (ids_in pre w cl Hin').
  - intros Hnone. rewrite Hres, (find_client_none c (clients a) Hnone).
    run_m. split; reflexivity.
Qed.

(** *** Detaching *)

(** No handler ever takes an entry out of the table or changes one. *)
Lemma step_clients_grow (s s' : system) :
  step loads dumps s s' ->
  exists l, clients (sys_app s') = (clients (sys_app s) ++ l)%list.
Proof.
  intros Hstep. destruct Hstep; cbn [sys_app].
  - exists []. rewrite app_nil_r. subst a0. apply ws_handler_clients.
  - destruct (Z_lt_le_dec (ct_client_id t) (max_clients a)) as [Hroom|Hfull].
    + eexists. apply (client_prepared_registered closed a t Hroom).
    + exists []. rewrite client_prepared_refused, app_nil_r by assumption.
      reflexivity.
  - exists []. rewrite app_nil_r. apply client_connected_clients.
  - exists []. rewrite app_nil_r, client_on_msg_app. reflexivity.
  - exists []. rewrite app_nil_r. reflexivity.
  - exists []. rewrite app_nil_r, browser_on_msg_app. reflexivity.
Qed.

Lemma reachable_clients_grow (s0 s : system) :
  reachable loads dumps s0 s ->
  exists l, clients (sys_app s) = (clients (sys_app s0) ++ l)%list.
Proof.
  induction 1 as [|s s' _ [l IH] Hstep].
  - exists []. symmetry. apply app_nil_r.
  - destruct (step_clients_grow s s' Hstep) as [l' Hl'].
    exists (l ++ l')%list. rewrite Hl', IH, app_assoc. reflexivity.
Qed.

Lemma ws_client_handler_app (closed : ws -> bool) (a : app) (w : ws)
  (path_qs : string) (dial : option ws) (ms : list arrival) :
  fst (ws_client_handler loads dumps closed a w path_qs dial ms) =
  fst (attach closed a w path_qs dial).
Proof.
  unfold ws_client_handler. apply and_then_app.
  intros a'. apply client_loop_app.
Qed.

(** C7, amended: a client that was registered stays in the table when its
    read loop ends, in whichever way (the stream closes, a frame is not
    JSON, the browser socket is found closed): nothing removes it, then or
    later.  Its id is not given out again: whatever the handlers do
    afterwards, a handler that starts gets a larger id. *)
Theorem client_stays_registered (closed : ws -> bool) (a : app) (w : ws)
  (path_qs : string) (dial : option ws) (ms : list arrival) :
  Z.of_nat (List.length (clients a)) < max_clients a ->
  let n := Z.of_nat (List.length (clients a)) in
  let c := mkClient n (last_segment path_qs) in
  let a' := fst (ws_client_handler loads dumps closed a w path_qs dial ms) in
  clients a' = (clients a ++ [(w, c)])%list /\
  forall (waiting : list client_task) (s : system) (w' : ws) (path_qs' : string),
    reachable loads dumps (mkSystem a' waiting) s ->
    In (w, c) (clients (sys_app s)) /\
    n < ct_client_id (fst (client_begin (sys_app s) w' path_qs')).
Proof.
  intros Hroom n c a'.
  assert (Ha' : clients a' = (clients a ++ [(w, c)])%list).
  { subst a'. rewrite ws_client_handler_app.
    apply (attach_registered closed a w path_qs dial Hroom). }
  split; [exact Ha'|].
  intros waiting s w' path_qs' Hreach.
  destruct (reachable_clients_grow _ _ Hreach) as [l Hl].
  cbn [sys_app] in Hl. rewrite Ha' in Hl. split.
  - rewrite Hl. apply in_or_app. left. apply in_or_app. right. left. reflexivity.
  - cbn [client_begin fst ct_client_id]. rewrite Hl, !length_app.
    cbn [List.length]. subst n. lia.
Qed.

End WithCodec.

(** *** The theorems at concrete states *)

Lemma event_fan_out_witness :
  let a := attach_all Examples.app0
             [Examples.page_request 1%nat "A"; Examples.page_request 2%nat "B"] in
  let raw := "Page.loaded" in
  let r := browser_on_msg Examples.loads_event Examples.dumps_any
             Examples.all_open a "A" (Text raw) in
  fst r = a /\
  outcome (snd r) = Ok tt /\
  sent (events (snd r)) = [(1%nat, raw)] /\
  (forall w text,
      In (w, text) (sent (events (snd r))) <->
      text = raw /\
      exists c, In (w, c) (clients a) /\ tab_id c = "A" /\
                Examples.all_open w = false).
Proof.
  exact (event_fan_out Examples.loads_event Examples.dumps_any Examples.all_open
           (attach_all Examples.app0
              [Examples.page_request 1%nat "A"; Examples.page_request 2%nat "B"])
           "A" "Page.loaded"
           (JObj [("method", JStr "Page.loaded")]) eq_refl eq_refl).
Defined.

Lemma reply_routing_witness :
  let a := attach_all Examples.app0
             [Examples.page_request 1%nat "A"; Examples.page_request 2%nat "A"] in
  let res := browser_on_msg Examples.loads_reply Examples.dumps_any
               Examples.all_open a "A" (Text "reply") in
  clients a = [(1%nat, mkClient 0 "A"); (2%nat, mkClient 1 "A")] /\
  outcome (snd res) = Ok tt /\
  sent (events (snd res)) =
    [(2%nat, Examples.dumps_any (JObj [("id", JNum 7)]))].
Proof.
  split; [reflexivity|].
  destruct (reply_routing Examples.loads_reply Examples.dumps_any Examples.all_open
              (attach_all Examples.app0
                 [Examples.page_request 1%nat "A"; Examples.page_request 2%nat "A"])
              "A" "reply" (JObj [("id", JNum 1073741831)]) 1073741831 1 7
              eq_refl eq_refl eq_refl) as [_ [Hfirst _]].
  destruct (Hfirst [(1%nat, mkClient 0 "A")] 2%nat (mkClient 1 "A") []
              eq_refl eq_refl) as [Hopen _].
  { intros kv [<-|[]]. cbn. discriminate. }
  destruct (Hopen eq_refl) as [Ho [data' [Hassign Hs]]].
  split; [exact Ho|].
  cbn [assign dict_set String.eqb Ascii.eqb Bool.eqb] in Hassign.
  injection Hassign as <-. exact Hs.
Defined.

(** C3 as stated fails: with one client attached (id 0), a reply whose id
    decodes to client 1 finds no client, and the handler raises
    [StopIteration] instead of dropping the reply silently. *)
Lemma reply_without_client_counterexample :
  let a := attach_all Examples.app0 [Examples.page_request 1%nat "A"] in
  let res := browser_on_msg Examples.loads_reply Examples.dumps_any
               Examples.all_open a "A" (Text "reply") in
  ids (clients a) = [0] /\
  IdCodec.decode_id (f a) 1073741831 = Ok (1, 7) /\
  outcome (snd res) = Raise StopIteration /\
  outcome (snd res) <> Ok tt.
Proof.
  split; [reflexivity|]. split; [reflexivity|]. split; [reflexivity|discriminate].
Qed.

Lemma client_stays_registered_witness :
  let c := mkClient 0 "A" in
  let a' := fst (ws_client_handler Examples.loads_event Examples.dumps_any
                   Examples.all_open Examples.app0 1%nat "/devtools/page/A"
                   (Some 100%nat) []) in
  clients a' = [(1%nat, c)] /\
  forall (waiting : list client_task) (s : system) (w' : ws) (path_qs' : string),
    reachable Examples.loads_event Examples.dumps_any (mkSystem a' waiting) s ->
    In (1%nat, c) (clients (sys_app s)) /\
    0 < ct_client_id (fst (client_begin (sys_app s) w' path_qs')).
Proof.
  exact (client_stays_registered Examples.loads_event Examples.dumps_any
           Examples.all_open Examples.app0 1%nat "/devtools/page/A"
           (Some 100%nat) [] eq_refl).
Defined.

(** C7 as stated fails: a client attaches to page A and closes its socket
    at once; its handler prints DISCONNECTED and returns, and the client is
    still in the set of page A. *)
Lemma client_not_removed_counterexample :
  let r := ws_client_handler Examples.loads_event Examples.dumps_any
             Examples.all_open Examples.app0 1%nat "/devtools/page/A"
             (Some 100%nat) [] in
  outcome (snd r) = Ok Returned /\
  In (Print "[CLIENT 0] DISCONNECTED") (events (snd r)) /\
  clients_of_tab "A" (clients (fst r)) = [(1%nat, mkClient 0 "A")].
Proof.
  split; [reflexivity|]. split; [|reflexivity].
  cbn. do 5 right. left. reflexivity.
Qed.

End BrokerFacts.

(** ** HttpProxy *)

Module HttpProxyFacts.

Import Json HttpProxy.

Local Open Scope string_scope.

(** *** Dictionaries *)

Lemma dict_get_set_same {V : Type} (k : string) (v : V) (d : list (string * V)) :
  dict_get k (dict_set k v d) = Some v.
Proof.
  induction d as [|[k' v'] rest IH]; cbn.
  - rewrite String.eqb_refl. reflexivity.
  - destruct (String.eqb k k') eqn:Hk; cbn; rewrite Hk; [reflexivity | exact IH].
Qed.

Lemma dict_get_set_other {V : Type} (k k0 : string) (v : V) (d : list (string * V)) :
  k0 <> k ->
  dict_get k0 (dict_set k v d) = dict_get k0 d.
Proof.
  intros Hne. induction d as [|[k' v'] rest IH]; cbn.
  - destruct (String.eqb k0 k) eqn:Hk; [|reflexivity].
    apply String.eqb_eq in Hk. contradiction.
  - destruct (String.eqb k k') eqn:Hk; cbn.
    + apply String.eqb_eq in Hk. subst k'.
      destruct (String.eqb k0 k) eqn:Hk0; [|reflexivity].
      apply String.eqb_eq in Hk0. contradiction.
    + rewrite IH. reflexivity.
Qed.

Lemma set_default_present (k v : string) (t : tab) :
  dict_get k t <> None -> set_default k v t = t.
Proof.
  unfold set_default. destruct (dict_get k t); [reflexivity | contradiction].
Qed.

Lemma set_default_get_same (k v : string) (t : tab) :
  dict_get k (set_default k v t) <> None.
Proof.
  unfold set_default. destruct (dict_get k t) eqn:Hk.
  - rewrite Hk. discriminate.
  - rewrite dict_get_set_same. discriminate.
Qed.

Lemma set_default_get_other (k k0 v : string) (t : tab) :
  k0 <> k ->
  dict_get k0 (set_default k v t) = dict_get k0 t.
Proof.
  intros Hne. unfold set_default. destruct (dict_get k t); [reflexivity|].
  apply dict_get_set_other. exact Hne.
Qed.

(** *** Substitution *)

Lemma sub_no_match (pat : pattern) (repl : template) (s : string) :
  has_match pat s = false -> sub pat repl s = s.
Proof.
  unfold sub. induction s as [|c rest IH]; intros Hfree; [reflexivity|].
  cbn [has_match] in Hfree. cbn [sub_from].
  destruct (match_here pat (String c rest)); [discriminate|].
  rewrite IH by exact Hfree. reflexivity.
Qed.

(** *** Rewriting twice *)

Section Twice.

Variable chrome_host : hostname.
Variable chrome_port : Z.

Lemma rewrite_value_free (proxy_host proxy_port : plain) (v : string) :
  has_match (devtools_pattern chrome_host chrome_port) v = false ->
  rewrite_value chrome_host chrome_port proxy_host proxy_port v = v.
Proof.
  intros Hfree. unfold rewrite_value.
  destruct (contains _ v); [|reflexivity].
  apply sub_no_match. exact Hfree.
Qed.

Lemma rewrite_fields_free (proxy_host proxy_port : plain) (t : tab) :
  fields_match_free chrome_host chrome_port t = true ->
  rewrite_fields chrome_host chrome_port proxy_host proxy_port t = t.
Proof.
  unfold rewrite_fields, fields_match_free.
  induction t as [|[k v] rest IH]; intros Hfree; [reflexivity|].
  cbn in Hfree. apply andb_prop in Hfree. destruct Hfree as [Hv Hrest].
  cbn. rewrite IH by exact Hrest.
  rewrite rewrite_value_free; [reflexivity|].
  destruct (has_match _ v); [discriminate | reflexivity].
Qed.

(** A rewritten tab in which the pattern no longer matches is left as it is
    by a second pass: the fields are kept, and the two urls are there. *)
Lemma rewrite_tab_stable (proxy_host proxy_port : plain) (t : tab) :
  let t' := rewrite_tab chrome_host chrome_port proxy_host proxy_port t in
  fields_match_free chrome_host chrome_port t' = true ->
  rewrite_tab chrome_host chrome_port proxy_host proxy_port t' = t'.
Proof.
  intros t' Hfree.
  unfold rewrite_tab at 1. rewrite (rewrite_fields_free _ _ _ Hfree).
  subst t'. unfold rewrite_tab.
  set (t1 := rewrite_fields chrome_host chrome_port proxy_host proxy_port t).
  destruct (dict_get "id" t1) as [i|] eqn:Hid.
  - set (url := proxy_host ++ ":" ++ proxy_port ++ "/devtools/page/" ++ i).
    set (t2 := set_default "webSocketDebuggerUrl" ("ws://" ++ url) t1).
    set (t3 := set_default "devtoolsFrontendUrl"
                 ("/devtools/inspector.html?ws=" ++ url) t2).
    assert (Hid3 : dict_get "id" t3 = Some i).
    { subst t3 t2. rewrite !set_default_get_other by discriminate. exact Hid. }
    rewrite Hid3. fold url.
    assert (Hws : dict_get "webSocketDebuggerUrl" t3 <> None).
    { subst t3. rewrite set_default_get_other by discriminate.
      apply set_default_get_same. }
    rewrite (set_default_present "webSocketDebuggerUrl" _ t3 Hws).
    apply set_default_present. apply set_default_get_same.
  - rewrite Hid. reflexivity.
Qed.

End Twice.

End HttpProxyFacts.

(** * Further properties *)

(** ** IdCodec: the arithmetic of the packing *)

Module IdCodecExtra.

Import IdCodec IdCodecFacts.

(** What [main] fixes, in the form the proofs below use. *)
Lemma params_shape (n : Z) (p : params) :
  1 <= n <= 2 ^ 31 ->
  main_params n = Ok p ->
  0 <= bits_for_client_id p <= 31 /\
  max_request_id p = 2 ^ (31 - bits_for_client_id p) - 1 /\
  0 < 2 ^ (31 - bits_for_client_id p).
Proof.
  intros Hn Hp.
  pose proof (main_params_bits n p Hn Hp) as HB.
  destruct (main_params_inv n p Hp) as (_ & _ & _ & Hmax).
  split; [exact HB|]. split; [exact Hmax|].
  apply Z.pow_pos_nonneg; lia.
Qed.

Lemma encode_sum (n : Z) (p : params) (c r : Z) :
  1 <= n <= 2 ^ 31 ->
  main_params n = Ok p ->
  0 <= r <= max_request_id p ->
  encode_id p c r = Ok (c * (max_request_id p + 1) + r).
Proof.
  intros Hn Hp Hr.
  destruct (params_shape n p Hn Hp) as (HB & Hmax & Hpos).
  unfold encode_id, encode_id_raw, BITS. rewrite Hmax in *.
  destruct (r >? _) eqn:Hgt; [lia|].
  destruct (31 - bits_for_client_id p <? 0) eqn:Hneg; [lia|].
  rewrite pack_sum by lia. f_equal. f_equal. f_equal. lia.
Qed.

(** The encoded id is [client_id * (max_request_id + 1) + request_id], for
    every integer client id and every request id from 0 to
    [max_request_id]. *)
Theorem encode_is_sum (n : Z) (p : params) (c r : Z) :
  1 <= n <= 2 ^ 31 ->
  main_params n = Ok p ->
  0 <= r <= max_request_id p ->
  encode_id p c r = Ok (c * (max_request_id p + 1) + r).
Proof. exact (encode_sum n p c r). Qed.

Lemma encode_is_sum_witness :
  encode_id (mkParams 2 4 536870911) 3 5 = Ok (3 * (536870911 + 1) + 5).
Proof.
  apply (encode_is_sum 4 (mkParams 2 4 536870911) 3 5);
    [ cbn; lia | reflexivity | cbn; lia ].
Defined.

(** Two encodings with non-negative request ids are equal only if the
    client ids are equal and the request ids are equal: no two requests in
    flight share an upstream id. *)
Theorem encode_injective (n : Z) (p : params) (c r c' r' e : Z) :
  1 <= n <= 2 ^ 31 ->
  main_params n = Ok p ->
  0 <= r -> 0 <= r' ->
  encode_id p c r = Ok e ->
  encode_id p c' r' = Ok e ->
  c = c' /\ r = r'.
Proof.
  intros Hn Hp Hr Hr' He He'.
  destruct (params_shape n p Hn Hp) as (HB & Hmax & Hpos).
  assert (Hle : r <= max_request_id p).
  { unfold encode_id, encode_id_raw in He.
    destruct (r >? max_request_id p) eqn:Hgt; [discriminate | lia]. }
  assert (Hle' : r' <= max_request_id p).
  { unfold encode_id, encode_id_raw in He'.
    destruct (r' >? max_request_id p) eqn:Hgt; [discriminate | lia]. }
  rewrite (encode_sum n p c r Hn Hp) in He by lia.
  rewrite (encode_sum n p c' r' Hn Hp) in He' by lia.
  injection He as He. injection He' as He'.
  rewrite Hmax in *.
  set (m := 2 ^ (31 - bits_for_client_id p)) in *.
  assert (Hc : c = c') by nia.
  subst c'. split; [reflexivity | lia].
Qed.

Lemma encode_injective_witness : 1 = 1 /\ 7 = 7.
Proof.
  apply (encode_injective 2 (mkParams 1 2 1073741823) 1 7 1 7 1073741831);
    [ cbn; lia | reflexivity | lia | lia | reflexivity | reflexivity ].
Defined.

(** The client id is not checked: one of 2^B or more, with a request id in
    range, is encoded without error into an id of 2^31 or more. *)
Theorem encode_client_out_of_range (n : Z) (p : params) (c r : Z) :
  1 <= n <= 2 ^ 31 ->
  main_params n = Ok p ->
  2 ^ bits_for_client_id p <= c ->
  0 <= r <= max_request_id p ->
  exists e, encode_id p c r = Ok e /\ 2 ^ 31 <= e.
Proof.
  intros Hn Hp Hc Hr.
  destruct (params_shape n p Hn Hp) as (HB & Hmax & Hpos).
  rewrite (encode_sum n p c r Hn Hp Hr).
  eexists; split; [reflexivity|].
  rewrite Hmax in *.
  assert (Hpow : 2 ^ 31 = 2 ^ bits_for_client_id p * 2 ^ (31 - bits_for_client_id p)).
  { rewrite <- Z.pow_add_r by lia. f_equal. lia. }
  rewrite Hpow. nia.
Qed.

Lemma encode_client_out_of_range_witness :
  exists e, encode_id (mkParams 1 2 1073741823) 2 0 = Ok e /\ 2 ^ 31 <= e.
Proof.
  apply (encode_client_out_of_range 2 (mkParams 1 2 1073741823) 2 0);
    [ cbn; lia | reflexivity | cbn; lia | cbn; lia ].
Defined.

(** A negative request id passes the overflow check: it is encoded into a
    negative id, and that id decodes to a negative client id, under which no
    client is ever registered. *)
Theorem encode_negative_request (n : Z) (p : params) (c r : Z) :
  1 <= n <= 2 ^ 31 ->
  main_params n = Ok p ->
  r < 0 ->
  exists e c' r',
    encode_id p c r = Ok e /\ e < 0 /\
    decode_id p e = Ok (c', r') /\ c' < 0.
Proof.
  intros Hn Hp Hr.
  destruct (params_shape n p Hn Hp) as (HB & Hmax & Hpos).
  unfold encode_id, decode_id, encode_id_raw, decode_id_raw, BITS.
  rewrite Hmax.
  destruct (r >? _) eqn:Hgt; [lia|].
  destruct (31 - bits_for_client_id p <? 0) eqn:Hneg; [lia|].
  eexists; eexists; eexists.
  split; [reflexivity|].
  assert (He : Z.lor (Z.shiftl c (31 - bits_for_client_id p)) r < 0).
  { apply Z.lor_neg. right. exact Hr. }
  split; [exact He|]. split; [reflexivity|].
  apply Z.shiftr_neg. exact He.
Qed.

Lemma encode_negative_request_witness :
  exists e c' r',
    encode_id (mkParams 1 2 1073741823) 0 (-1) = Ok e /\ e < 0 /\
    decode_id (mkParams 1 2 1073741823) e = Ok (c', r') /\ c' < 0.
Proof.
  apply (encode_negative_request 2 (mkParams 1 2 1073741823) 0 (-1));
    [ cbn; lia | reflexivity | lia ].
Defined.

(** Every id of 31 bits decodes to a client id below [max_clients]. *)
Theorem decode_client_range (n : Z) (p : params) (e : Z) :
  1 <= n <= 2 ^ 31 ->
  main_params n = Ok p ->
  0 <= e < 2 ^ 31 ->
  exists c r, decode_id p e = Ok (c, r) /\ 0 <= c < max_clients p.
Proof.
  intros Hn Hp He.
  destruct (params_shape n p Hn Hp) as (HB & Hmax & Hpos).
  destruct (main_params_inv n p Hp) as (_ & _ & Hcap & _).
  unfold decode_id, decode_id_raw, BITS.
  destruct (31 - bits_for_client_id p <? 0) eqn:Hneg; [lia|].
  eexists; eexists; split; [reflexivity|].
  rewrite Hcap, Z.shiftr_div_pow2 by lia.
  assert (Hpow : 2 ^ 31 = 2 ^ bits_for_client_id p * 2 ^ (31 - bits_for_client_id p)).
  { rewrite <- Z.pow_add_r by lia. f_equal. lia. }
  split.
  - apply Z.div_pos; lia.
  - apply Z.div_lt_upper_bound; lia.
Qed.

Lemma decode_client_range_witness :
  exists c r, decode_id (mkParams 2 4 536870911) 1610612736 = Ok (c, r) /\ 0 <= c < 4.
Proof.
  apply (decode_client_range 4 (mkParams 2 4 536870911) 1610612736);
    [ cbn; lia | reflexivity | cbn; lia ].
Defined.

(** The capacity [main] stores is the least power of two that is at least
    [--max-clients]: it is never smaller, it is less than twice as large,
    and together with the request ids it fills the 31 bits exactly. *)
Theorem effective_capacity (n : Z) (p : params) :
  1 <= n <= 2 ^ 31 ->
  main_params n = Ok p ->
  n <= max_clients p < 2 * n /\
  max_clients p * (max_request_id p + 1) = 2 ^ 31.
Proof.
  intros Hn Hp.
  destruct (params_shape n p Hn Hp) as (HB & Hmax & Hpos).
  destruct (main_params_inv n p Hp) as (_ & Hb & Hcap & _).
  split.
  - rewrite Hcap, Hb.
    destruct (Z.eq_dec n 1) as [->|Hne]; [cbn; lia|].
    pose proof (Z.log2_up_spec n ltac:(lia)) as [Hlo Hhi].
    split; [exact Hhi|].
    replace (Z.log2_up n) with (Z.succ (Z.pred (Z.log2_up n))) by lia.
    rewrite Z.pow_succ_r; [lia|].
    pose proof (Z.log2_up_pos n ltac:(lia)). lia.
  - rewrite Hcap, Hmax. rewrite Z.sub_add, <- Z.pow_add_r by lia.
    f_equal. lia.
Qed.

Lemma effective_capacity_witness :
  3 <= 4 < 2 * 3 /\ 4 * (536870911 + 1) = 2 ^ 31.
Proof.
  apply (effective_capacity 3 (mkParams 2 4 536870911)); [ cbn; lia | reflexivity ].
Defined.

End IdCodecExtra.

(** ** PageBroker: capacity, numbering and the tables *)

Module BrokerExtra.

Import Json Broker BrokerFacts.

Local Open Scope string_scope.

(** *** Capacity when requests come one after the other *)

Lemma attach_max_clients (closed : ws -> bool) (a : app) (w : ws)
  (path_qs : string) (dial : option ws) :
  max_clients (fst (attach closed a w path_qs dial)) = max_clients a.
Proof.
  destruct (Z_lt_le_dec (Z.of_nat (List.length (clients a))) (max_clients a))
    as [Hroom|Hfull].
  - apply (attach_registered closed a w path_qs dial Hroom).
  - rewrite attach_refused by exact Hfull. apply ws_handler_clients.
Qed.

Lemma attach_full_clients (closed : ws -> bool) (a : app) (w : ws)
  (path_qs : string) (dial : option ws) :
  max_clients a <= Z.of_nat (List.length (clients a)) ->
  clients (fst (attach closed a w path_qs dial)) = clients a.
Proof.
  intros Hfull. rewrite attach_refused by exact Hfull. apply ws_handler_clients.
Qed.

(** Requests attached one after the other fill the table up to
    [max_clients] and no further: from a table within the capacity, the
    size after the requests is the smaller of the capacity and the size
    before plus the number of requests. *)
Theorem attach_all_size (rs : list request) (a : app) :
  Z.of_nat (List.length (clients a)) <= max_clients a ->
  Z.of_nat (List.length (clients (attach_all a rs))) =
  Z.min (Z.of_nat (List.length (clients a)) + Z.of_nat (List.length rs))
        (max_clients a).
Proof.
  revert a. induction rs as [|r rest IH]; intros a Hle; cbn [attach_all List.length].
  - lia.
  - pose proof (attach_max_clients (rq_closed r) a (rq_ws r) (rq_path_qs r) (rq_dial r))
      as Hm.
    destruct (Z_lt_le_dec (Z.of_nat (List.length (clients a))) (max_clients a))
      as [Hroom|Hfull].
    + destruct (attach_registered (rq_closed r) a (rq_ws r) (rq_path_qs r) (rq_dial r)
                  Hroom) as [Hc _].
      rewrite IH; rewrite Hm, Hc, length_app; cbn [List.length]; lia.
    + pose proof (attach_full_clients (rq_closed r) a (rq_ws r) (rq_path_qs r)
                    (rq_dial r) Hfull) as Hc.
      rewrite IH; rewrite Hm, Hc; lia.
Qed.

Lemma attach_all_size_witness :
  Z.of_nat (List.length (clients (attach_all Examples.app0
     [Examples.page_request 1%nat "A"; Examples.page_request 2%nat "B";
      Examples.page_request 3%nat "A"]))) =
  Z.min (0 + 3) 2.
Proof.
  apply (attach_all_size
           [Examples.page_request 1%nat "A"; Examples.page_request 2%nat "B";
            Examples.page_request 3%nat "A"] Examples.app0).
  cbn. lia.
Defined.

(** Once the table holds [max_clients] entries, every later request is
    refused and the table stays as it is: clients that have closed their
    socket keep their place, so the places are never free again. *)
Theorem attach_all_when_full (rs : list request) (a : app) :
  max_clients a <= Z.of_nat (List.length (clients a)) ->
  clients (attach_all a rs) = clients a.
Proof.
  revert a. induction rs as [|r rest IH]; intros a Hfull; cbn [attach_all].
  - reflexivity.
  - pose proof (attach_max_clients (rq_closed r) a (rq_ws r) (rq_path_qs r) (rq_dial r))
      as Hm.
    pose proof (attach_full_clients (rq_closed r) a (rq_ws r) (rq_path_qs r)
                  (rq_dial r) Hfull) as Hc.
    rewrite IH; [exact Hc|]. rewrite Hm, Hc. exact Hfull.
Qed.

Lemma attach_all_when_full_witness :
  let a := attach_all Examples.app0
             [Examples.page_request 1%nat "A"; Examples.page_request 2%nat "A"] in
  clients (attach_all a [Examples.page_request 3%nat "B";
                         Examples.page_request 4%nat "A"]) = clients a.
Proof.
  apply (attach_all_when_full
           [Examples.page_request 3%nat "B"; Examples.page_request 4%nat "A"]
           (attach_all Examples.app0
              [Examples.page_request 1%nat "A"; Examples.page_request 2%nat "A"])).
  cbn. lia.
Defined.

(** *** Which socket an id names *)

Lemma find_numbered (rs : list request) :
  forall (n i : nat) (rq : request),
    nth_error rs i = Some rq ->
    find (fun kv : ws * client => (id (snd kv) =? Z.of_nat (n + i))%Z)
         (map (fun ir => (rq_ws (snd ir),
                          mkClient (Z.of_nat (fst ir))
                                   (last_segment (rq_path_qs (snd ir)))))
              (combine (seq n (List.length rs)) rs))
    = Some (rq_ws rq, mkClient (Z.of_nat (n + i)) (last_segment (rq_path_qs rq))).
Proof.
  induction rs as [|r rest IH]; intros n i rq Hnth.
  - destruct i; discriminate.
  - cbn [List.length seq combine map find fst snd id].
    destruct i as [|j].
    + cbn in Hnth. injection Hnth as ->.
      rewrite Nat.add_0_r, Z.eqb_refl. reflexivity.
    + cbn in Hnth.
      destruct (Z.of_nat n =? Z.of_nat (n + S j))%Z eqn:Heq.
      * apply Z.eqb_eq in Heq. lia.
      * replace (n + S j)%nat with (S n + j)%nat by lia.
        apply IH. exact Hnth.
Qed.

(** After K <= max_clients requests attached one after the other to an
    empty table, the lookup a reply goes through finds, for the id i, the
    socket of the request that came i-th (counting from 0). *)
Theorem reply_lookup_finds_ith (a : app) (rs : list request) (i : nat)
  (rq : request) :
  clients a = [] ->
  Z.of_nat (List.length rs) <= max_clients a ->
  nth_error rs i = Some rq ->
  next_client (Z.of_nat i) (clients (attach_all a rs)) = Ok (rq_ws rq).
Proof.
  intros Hempty Hcap Hnth.
  rewrite attach_all_clients by (rewrite Hempty; cbn; lia).
  rewrite Hempty. cbn [List.app List.length].
  unfold next_client.
  pose proof (find_numbered rs 0 i rq Hnth) as Hfind.
  cbn [Nat.add] in Hfind. rewrite Hfind. reflexivity.
Qed.

Lemma reply_lookup_finds_ith_witness :
  next_client (Z.of_nat 1)
    (clients (attach_all Examples.app0
       [Examples.page_request 5%nat "A"; Examples.page_request 6%nat "B"]))
  = Ok 6%nat.
Proof.
  apply (reply_lookup_finds_ith Examples.app0
           [Examples.page_request 5%nat "A"; Examples.page_request 6%nat "B"]
           1%nat (Examples.page_request 6%nat "B"));
    [ reflexivity | cbn; lia | reflexivity ].
Defined.

(** *** What holds however the handlers take turns *)

Lemma client_prepared_max_clients (closed : ws -> bool) (a : app) (t : client_task) :
  max_clients (fst (client_prepared closed a t)) = max_clients a.
Proof.
  destruct (Z_lt_le_dec (ct_client_id t) (max_clients a)) as [Hroom|Hfull].
  - apply (client_prepared_registered closed a t Hroom).
  - rewrite client_prepared_refused by exact Hfull. reflexivity.
Qed.

Lemma dict_set_keys_absent {V : Type} (k : string) (v : V) (d : list (string * V)) :
  dict_get k d = None ->
  map fst (dict_set k v d) = (map fst d ++ [k])%list /\ ~ In k (map fst d).
Proof.
  induction d as [|[k' v'] rest IH]; cbn; intros Hget.
  - split; [reflexivity | tauto].
  - destruct (String.eqb k k') eqn:Hk; [discriminate|].
    destruct (IH Hget) as [Hkeys Hnotin]. cbn. rewrite Hkeys.
    split; [reflexivity|].
    intros [Heq|Hin]; [|contradiction].
    subst k'. rewrite String.eqb_refl in Hk. discriminate.
Qed.

Lemma dict_set_keys_present {V : Type} (k : string) (v : V) (d : list (string * V)) :
  dict_get k d <> None ->
  map fst (dict_set k v d) = map fst d.
Proof.
  induction d as [|[k' v'] rest IH]; cbn; intros Hget.
  - contradiction.
  - destruct (String.eqb k k') eqn:Hk; cbn; [reflexivity|].
    rewrite IH by exact Hget. reflexivity.
Qed.

Lemma ws_handler_tabs (a : app) (path_qs : string) :
  let a' := fst (ws_handler a path_qs) in
  let t := last_segment path_qs in
  dict_get t (tabs a') <> None /\
  (tabs_kept a a' \/
   (~ In t (map fst (tabs a)) /\
    tasks a' = (tasks a ++ [t])%list /\
    map fst (tabs a') = (map fst (tabs a) ++ [t])%list)).
Proof.
  unfold ws_handler. cbn zeta.
  destruct (dict_get (last_segment path_qs) (tabs a)) eqn:Hget; cbn [fst].
  - split; [rewrite Hget; discriminate|]. left. split; reflexivity.
  - cbn [add_task set_tabs tabs tasks].
    split; [rewrite HttpProxyFacts.dict_get_set_same; discriminate|]. right.
    destruct (dict_set_keys_absent (last_segment path_qs) (@None ws) (tabs a) Hget)
      as [Hkeys Hnotin].
    split; [exact Hnotin|]. split; [reflexivity | exact Hkeys].
Qed.

Lemma client_prepared_tabs (closed : ws -> bool) (a : app) (t : client_task) :
  tabs_kept a (fst (client_prepared closed a t)).
Proof.
  unfold client_prepared, tabs_kept.
  destruct (ct_client_id t >=? max_clients a)%Z; [split; reflexivity|].
  destruct (upstream_missing _ _ _) as [[|]|]; split; reflexivity.
Qed.

Lemma client_connected_tabs (a : app) (t : client_task) (r : option ws) :
  tabs_kept a (fst (client_connected a t r)).
Proof.
  unfold client_connected, tabs_kept. destruct r as [up|]; [|split; reflexivity].
  destruct (dict_get (ct_tab_id t) (tabs a)) eqn:Hget; [|split; reflexivity].
  cbn [fst set_tabs tabs tasks]. split; [reflexivity|].
  apply dict_set_keys_present. rewrite Hget. discriminate.
Qed.

Section Turns.

Variable loads : string -> option json.
Variable dumps : json -> string.

Lemma step_max_clients (s s' : system) :
  step loads dumps s s' ->
  max_clients (sys_app s') = max_clients (sys_app s).
Proof.
  intros Hstep. destruct Hstep; cbn [sys_app].
  - subst a0. apply ws_handler_clients.
  - apply client_prepared_max_clients.
  - apply client_connected_clients.
  - rewrite client_on_msg_app. reflexivity.
  - reflexivity.
  - rewrite browser_on_msg_app. reflexivity.
Qed.

(** In whatever order the handlers take their turns, every client in the
    table has an id from 0 to [max_clients] - 1: the capacity check is made
    on the id at registration, so an id always fits the client field. *)
Theorem registered_ids_in_range (s0 s : system) :
  Forall (fun kv => 0 <= id (snd kv) < max_clients (sys_app s0))
         (clients (sys_app s0)) ->
  Forall (fun t => 0 <= ct_client_id t) (sys_waiting s0) ->
  reachable loads dumps s0 s ->
  Forall (fun kv => 0 <= id (snd kv) < max_clients (sys_app s))
         (clients (sys_app s)).
Proof.
  intros Hids0 Hwait0 Hreach.
  assert (Hinv :
    Forall (fun kv => 0 <= id (snd kv) < max_clients (sys_app s)) (clients (sys_app s)) /\
    Forall (fun t => 0 <= ct_client_id t) (sys_waiting s)).
  { induction Hreach as [|s s' _ [IHids IHwait] Hstep]; [split; assumption|].
    pose proof (step_max_clients s s' Hstep) as Hm. rewrite Hm. clear Hm.
    destruct Hstep; cbn [sys_app sys_waiting] in *.
    - subst a0. destruct (ws_handler_clients (sys_app s) path_qs) as [Hc _].
      rewrite Hc. split; [exact IHids|].
      constructor; [cbn; lia | exact IHwait].
    - apply Forall_app in IHwait. destruct IHwait as [Hl1 Hl2].
      inversion Hl2 as [|x l Ht Hl2']; subst.
      split; [|apply Forall_app; split; assumption].
      destruct (Z_lt_le_dec (ct_client_id t) (max_clients a)) as [Hroom|Hfull].
      + destruct (client_prepared_registered closed a t Hroom) as [Hc _].
        rewrite Hc. apply Forall_app. split; [exact IHids|].
        constructor; [cbn; lia | constructor].
      + rewrite client_prepared_refused by exact Hfull. exact IHids.
    - destruct (client_connected_clients (sys_app s) t r) as [Hc _].
      rewrite Hc. split; assumption.
    - rewrite client_on_msg_app. split; assumption.
    - split; assumption.
    - rewrite browser_on_msg_app. split; assumption. }
  apply Hinv.
Qed.

Lemma step_tabs (s s' : system) :
  step loads dumps s s' ->
  tabs_kept (sys_app s) (sys_app s') \/
  exists t, ~ In t (map fst (tabs (sys_app s))) /\
            tasks (sys_app s') = (tasks (sys_app s) ++ [t])%list /\
            map fst (tabs (sys_app s')) = (map fst (tabs (sys_app s)) ++ [t])%list.
Proof.
  intros Hstep. destruct Hstep; cbn [sys_app].
  - subst a0. destruct (ws_handler_tabs (sys_app s) path_qs) as [_ [Hk|Hn]].
    + left. exact Hk.
    + right. eexists. exact Hn.
  - left. apply client_prepared_tabs.
  - left. apply client_connected_tabs.
  - left. rewrite client_on_msg_app. split; reflexivity.
  - left. split; reflexivity.
  - left. rewrite browser_on_msg_app. split; reflexivity.
Qed.

(** In whatever order the handlers take their turns, the reader tasks are
    the tab ids of [app['tabs']], each once: a page gets its reader with its
    first request and never a second one, also after its browser socket has
    been dialled again. *)
Theorem one_reader_per_tab (s0 s : system) :
  tasks (sys_app s0) = map fst (tabs (sys_app s0)) ->
  NoDup (map fst (tabs (sys_app s0))) ->
  reachable loads dumps s0 s ->
  tasks (sys_app s) = map fst (tabs (sys_app s)) /\ NoDup (tasks (sys_app s)).
Proof.
  intros Htasks0 Hnd0 Hreach.
  induction Hreach as [|s s' _ [IHtasks IHnd] Hstep].
  - split; [exact Htasks0 | rewrite Htasks0; exact Hnd0].
  - destruct (step_tabs s s' Hstep) as [[Ht Hk]|[t [Hnotin [Ht Hk]]]].
    + rewrite Ht, Hk. split; assumption.
    + rewrite Ht, Hk, IHtasks. split; [reflexivity|].
      rewrite <- IHtasks.
      apply NoDup_app; [exact IHnd | repeat constructor; intros [] |].
      intros x Hx [Heq|[]]. subst x. rewrite IHtasks in Hx. contradiction.
Qed.

End Turns.

Lemma registered_ids_in_range_witness :
  let s0 := mkSystem Examples.app0 [] in
  let a0 := fst (ws_handler (sys_app s0) "/devtools/page/A") in
  let t := fst (client_begin a0 1%nat "/devtools/page/A") in
  let s2 := mkSystem (fst (client_prepared Examples.all_open a0 t)) [] in
  Forall (fun kv => 0 <= id (snd kv) < max_clients (sys_app s2))
         (clients (sys_app s2)).
Proof.
  intros s0 a0 t s2.
  apply (registered_ids_in_range Examples.loads_event Examples.dumps_any s0 s2).
  - constructor.
  - constructor.
  - apply (reach_step _ _ s0 (mkSystem a0 [t]) s2).
    + apply (reach_step _ _ s0 s0); [apply reach_refl|].
      exact (step_begin _ _ s0 1%nat "/devtools/page/A").
    + exact (step_prepared _ _ a0 [] [] t Examples.all_open).
Defined.

Lemma one_reader_per_tab_witness :
  let s0 := mkSystem Examples.app0 [] in
  let a0 := fst (ws_handler (sys_app s0) "/devtools/page/A") in
  let t := fst (client_begin a0 1%nat "/devtools/page/A") in
  let s1 := mkSystem a0 [t] in
  let a1 := fst (ws_handler a0 "/devtools/page/A") in
  let s2 := mkSystem a1 [fst (client_begin a1 2%nat "/devtools/page/A"); t] in
  tasks (sys_app s2) = map fst (tabs (sys_app s2)) /\ NoDup (tasks (sys_app s2)).
Proof.
  intros s0 a0 t s1 a1 s2.
  apply (one_reader_per_tab Examples.loads_event Examples.dumps_any s0 s2).
  - reflexivity.
  - constructor.
  - apply (reach_step _ _ s0 s1 s2).
    + apply (reach_step _ _ s0 s0); [apply reach_refl|].
      exact (step_begin _ _ s0 1%nat "/devtools/page/A").
    + exact (step_begin _ _ s1 2%nat "/devtools/page/A").
Defined.

(** *** The browser socket of a page *)

(** A client that attaches to a page whose browser socket is open shares
    that socket: it is registered and goes to its read loop without a new
    session and without a dial, and the tabs are as before. *)
Theorem attach_shares_upstream (closed : ws -> bool) (a : app) (w : ws)
  (path_qs : string) (dial : option ws) (up : ws) :
  Z.of_nat (List.length (clients a)) < max_clients a ->
  dict_get (last_segment path_qs) (tabs a) = Some (Some up) ->
  closed up = false ->
  let n := Z.of_nat (List.length (clients a)) in
  attach closed a w path_qs dial =
    (set_clients a (clients a ++ [(w, mkClient n (last_segment path_qs))])%list,
     ([Prepare w; Print (client_prefix n ++ " CONNECTED")], Ok Reading)).
Proof.
  intros Hroom Hup Hopen n. subst n.
  unfold attach, ws_handler. rewrite Hup.
  unfold client_begin, client_prepared. cbn [ct_client_id ct_ws].
  destruct (Z.of_nat (List.length (clients a)) >=? max_clients a)%Z eqn:Hge; [lia|].
  unfold upstream_missing, ct_tab_id. cbn [ct_path_qs set_clients tabs].
  rewrite Hup, Hopen. reflexivity.
Qed.

Lemma attach_shares_upstream_witness :
  attach Examples.all_open Examples.app1 2%nat "/devtools/page/A" None =
    (set_clients Examples.app1
       (clients Examples.app1 ++ [(2%nat, mkClient 1 "A")])%list,
     ([Prepare 2%nat; Print "[CLIENT 1] CONNECTED"], Ok Reading)).
Proof.
  apply (attach_shares_upstream Examples.all_open Examples.app1 2%nat
           "/devtools/page/A" None 100%nat);
    [ cbn; lia | reflexivity | reflexivity ].
Defined.

(** When the page has no open browser socket and the dial succeeds, the
    socket dialled becomes the page's browser socket, whatever was there,
    and the handler goes to its read loop. *)
Theorem attach_dials_when_missing (closed : ws -> bool) (a : app) (w : ws)
  (path_qs : string) (up : ws) :
  Z.of_nat (List.length (clients a)) < max_clients a ->
  (forall old, dict_get (last_segment path_qs) (tabs a) = Some (Some old) ->
               closed old = true) ->
  let r := attach closed a w path_qs (Some up) in
  outcome (snd r) = Ok Reading /\
  dict_get (last_segment path_qs) (tabs (fst r)) = Some (Some up) /\
  sessions (fst r) = S (sessions a) /\
  In (WsConnect ("ws://" ++ chrome_host a ++ ":" ++ fmt_d (chrome_port a) ++ path_qs))
     (events (snd r)).
Proof.
  intros Hroom Hclosed r. subst r.
  unfold attach, ws_handler, client_begin.
  set (tab := last_segment path_qs) in *.
  assert (Hmissing : forall a0 es0,
    clients a0 = clients a -> max_clients a0 = max_clients a ->
    sessions a0 = sessions a -> chrome_host a0 = chrome_host a ->
    chrome_port a0 = chrome_port a ->
    (forall old, dict_get tab (tabs a0) = Some (Some old) -> closed old = true) ->
    dict_get tab (tabs a0) <> None ->
    let t := mkTask w path_qs (Z.of_nat (List.length (clients a0))) in
    let r :=
      match client_prepared closed a0 t with
      | (a1, (es2, Ok (AwaitConnect _))) =>
          let '(a2, (es3, r)) := client_connected a1 t (Some up) in
          (a2, ((es0 ++ [Prepare w] ++ es2 ++ es3)%list, r))
      | (a1, (es2, r)) => (a1, ((es0 ++ [Prepare w] ++ es2)%list, r))
      end in
    outcome (snd r) = Ok Reading /\
    dict_get tab (tabs (fst r)) = Some (Some up) /\
    sessions (fst r) = S (sessions a) /\
    In (WsConnect ("ws://" ++ chrome_host a ++ ":" ++ fmt_d (chrome_port a) ++ path_qs))
       (events (snd r))).
  { intros a0 es0 Hc Hm Hs Hh Hp Hup Hsome t r. subst t r.
    unfold client_prepared. cbn [ct_client_id ct_ws].
    rewrite Hc, Hm.
    destruct (Z.of_nat (List.length (clients a)) >=? max_clients a)%Z eqn:Hge; [lia|].
    unfold upstream_missing, ct_tab_id. cbn [ct_path_qs set_clients tabs].
    fold tab.
    assert (Hmiss : match dict_get tab (tabs a0) with
                    | None => Raise KeyError
                    | Some None => Ok true
                    | Some (Some old) => Ok (closed old)
                    end = Ok true).
    { destruct (dict_get tab (tabs a0)) as [[old|]|] eqn:Hget;
        [rewrite (Hup old eq_refl); reflexivity | reflexivity | contradiction]. }
    rewrite Hmiss.
    unfold emit, ret. run_m.
    unfold client_connected, ct_tab_id.
    cbn [ct_path_qs add_session set_clients tabs]. fold tab.
    destruct (dict_get tab (tabs a0)) as [o|] eqn:Hget; [|contradiction].
    unfold ret. cbn [fst snd events outcome set_tabs tabs sessions add_session].
    rewrite HttpProxyFacts.dict_get_set_same, Hh, Hp.
    split; [reflexivity|]. split; [reflexivity|].
    split; [cbn [set_clients sessions]; rewrite Hs; reflexivity|].
    apply in_or_app. right. cbn. tauto. }
  destruct (dict_get tab (tabs a)) as [o|] eqn:Hget.
  - apply Hmissing; try reflexivity.
    + intros old Hold. apply Hclosed. rewrite <- Hold. symmetry. exact Hget.
    + rewrite Hget. discriminate.
  - apply Hmissing; try reflexivity.
    + cbn [add_task set_tabs tabs]. intros old Hold.
      rewrite HttpProxyFacts.dict_get_set_same in Hold. discriminate.
    + cbn [add_task set_tabs tabs].
      rewrite HttpProxyFacts.dict_get_set_same. discriminate.
Qed.

Lemma attach_dials_when_missing_witness :
  let r := attach Examples.all_open Examples.app0 1%nat "/devtools/page/A"
             (Some 100%nat) in
  outcome (snd r) = Ok Reading /\
  dict_get "A" (tabs (fst r)) = Some (Some 100%nat) /\
  sessions (fst r) = 1%nat /\
  In (WsConnect "ws://127.0.0.1:12222/devtools/page/A") (events (snd r)).
Proof.
  apply (attach_dials_when_missing Examples.all_open Examples.app0 1%nat
           "/devtools/page/A" 100%nat).
  - cbn. lia.
  - intros old Hold. discriminate Hold.
Defined.

(** *** A dial that fails *)

(** When the browser has to be dialled and the handshake fails, the handler
    prints CONNECTION ERROR and returns, but the client has been registered
    before the dial and stays so, and a session has been opened: the failed
    attach takes one of the [max_clients] places. *)
Theorem dial_failure_keeps_client (closed : ws -> bool) (a : app) (w : ws)
  (path_qs : string) :
  Z.of_nat (List.length (clients a)) < max_clients a ->
  (forall up, dict_get (last_segment path_qs) (tabs a) = Some (Some up) ->
              closed up = true) ->
  let n := Z.of_nat (List.length (clients a)) in
  let r := attach closed a w path_qs None in
  outcome (snd r) = Ok Returned /\
  clients (fst r) = (clients a ++ [(w, mkClient n (last_segment path_qs))])%list /\
  sessions (fst r) = S (sessions a) /\
  In (Print (client_prefix n ++ " CONNECTION ERROR: " ++ last_segment path_qs))
     (events (snd r)) /\
  sent (events (snd r)) = [].
Proof.
  intros Hroom Hclosed n r. subst n r.
  unfold attach, ws_handler, client_begin.
  set (tab := last_segment path_qs) in *.
  assert (Hmissing : forall a0 es0,
    clients a0 = clients a -> max_clients a0 = max_clients a ->
    sessions a0 = sessions a ->
    sent es0 = [] ->
    (forall up, dict_get tab (tabs a0) = Some (Some up) -> closed up = true) ->
    dict_get tab (tabs a0) <> None ->
    let t := mkTask w path_qs (Z.of_nat (List.length (clients a0))) in
    let r :=
      match client_prepared closed a0 t with
      | (a1, (es2, Ok (AwaitConnect _))) =>
          let '(a2, (es3, r)) := client_connected a1 t None in
          (a2, ((es0 ++ [Prepare w] ++ es2 ++ es3)%list, r))
      | (a1, (es2, r)) => (a1, ((es0 ++ [Prepare w] ++ es2)%list, r))
      end in
    outcome (snd r) = Ok Returned /\
    clients (fst r) =
      (clients a ++ [(w, mkClient (Z.of_nat (List.length (clients a))) tab)])%list /\
    sessions (fst r) = S (sessions a) /\
    In (Print (client_prefix (Z.of_nat (List.length (clients a)))
               ++ " CONNECTION ERROR: " ++ tab)) (events (snd r)) /\
    sent (events (snd r)) = []).
  { intros a0 es0 Hc Hm Hs Hes0 Hup Hsome t r. subst t r.
    unfold client_prepared. cbn [ct_client_id ct_ws].
    rewrite Hc, Hm.
    destruct (Z.of_nat (List.length (clients a)) >=? max_clients a)%Z eqn:Hge; [lia|].
    unfold upstream_missing, ct_tab_id. cbn [ct_path_qs set_clients tabs].
    fold tab.
    destruct (dict_get tab (tabs a0)) as [[up|]|] eqn:Hget; [| |contradiction].
    - rewrite (Hup up eq_refl).
      unfold emit, ret. run_m. cbn [client_connected ct_client_id ct_tab_id].
      unfold emit, ret. run_m. cbn [fst snd events outcome].
      unfold ct_tab_id. cbn [ct_path_qs]. fold tab.
      cbn [add_session clients sessions set_clients].
      rewrite Hs. split; [reflexivity|]. split; [reflexivity|].
      split; [reflexivity|]. split.
      + apply in_or_app. right. cbn. tauto.
      + rewrite sent_app, Hes0. reflexivity.
    - unfold emit, ret. run_m. cbn [client_connected ct_client_id ct_tab_id].
      unfold emit, ret. run_m. cbn [fst snd events outcome].
      unfold ct_tab_id. cbn [ct_path_qs]. fold tab.
      cbn [add_session clients sessions set_clients].
      rewrite Hs. split; [reflexivity|]. split; [reflexivity|].
      split; [reflexivity|]. split.
      + apply in_or_app. right. cbn. tauto.
      + rewrite sent_app, Hes0. reflexivity. }
  destruct (dict_get tab (tabs a)) as [o|] eqn:Hget.
  - apply Hmissing; try reflexivity.
    + intros up Hup. apply Hclosed. rewrite <- Hup. symmetry. exact Hget.
    + rewrite Hget. discriminate.
  - apply Hmissing; try reflexivity.
    + cbn [add_task set_tabs tabs]. intros up Hup.
      rewrite HttpProxyFacts.dict_get_set_same in Hup. discriminate.
    + cbn [add_task set_tabs tabs].
      rewrite HttpProxyFacts.dict_get_set_same. discriminate.
Qed.

Lemma dial_failure_keeps_client_witness :
  let r := attach Examples.all_open Examples.app0 1%nat "/devtools/page/A" None in
  outcome (snd r) = Ok Returned /\
  clients (fst r) = [(1%nat, mkClient 0 "A")] /\
  sessions (fst r) = 1%nat /\
  In (Print "[CLIENT 0] CONNECTION ERROR: A") (events (snd r)) /\
  sent (events (snd r)) = [].
Proof.
  apply (dial_failure_keeps_client Examples.all_open Examples.app0 1%nat
           "/devtools/page/A").
  - cbn. lia.
  - intros up Hup. discriminate Hup.
Defined.

(** *** Frames *)

Section Frames.

Variable loads : string -> option json.
Variable dumps : json -> string.

(** What [client_on_msg] does with a text frame while the browser socket is
    open, step by step. *)
Lemma client_on_msg_open (closed : ws -> bool) (a : app) (t : client_task)
  (raw : string) (up : ws) :
  dict_get (ct_tab_id t) (tabs a) = Some (Some up) ->
  closed up = false ->
  snd (client_on_msg loads dumps closed a t (Text raw)) =
    (data <~ msg_json loads raw ;;
     old <~ lift (subscript data "id") ;;
     request_id <~ lift (as_int old) ;;
     encoded <~ lift (IdCodec.encode_id (f a) (ct_client_id t) request_id) ;;
     data' <~ lift (assign data "id" (JNum encoded)) ;;
     emit (PrintData (client_prefix (ct_client_id t) ++ " >>") data') ;;;
     send_json dumps closed up data' ;;;
     ret Reading).
Proof.
  intros Hup Hopen. unfold client_on_msg. rewrite Hup, Hopen. reflexivity.
Qed.

(** A client's frame is never sent to another client: whatever
    [client_on_msg] sends is one frame, to the browser socket of the
    client's own tab, and only while that socket is open. *)
Theorem client_frames_go_upstream (closed : ws -> bool) (a : app)
  (t : client_task) (m : msg) (w : ws) (text : string) :
  In (w, text) (sent (events (snd (client_on_msg loads dumps closed a t m)))) ->
  dict_get (ct_tab_id t) (tabs a) = Some (Some w) /\
  closed w = false /\
  sent (events (snd (client_on_msg loads dumps closed a t m))) = [(w, text)].
Proof.
  destruct m as [raw|]; [|intros []].
  destruct (dict_get (ct_tab_id t) (tabs a)) as [[up|]|] eqn:Hup;
    try (unfold client_on_msg; rewrite Hup; intros []).
  destruct (closed up) eqn:Hopen;
    [unfold client_on_msg; rewrite Hup, Hopen; cbn; tauto|].
  rewrite (client_on_msg_open closed a t raw up Hup Hopen).
  unfold msg_json, lift, ret, raise, emit, send_json.
  destruct (loads raw) as [data|]; [|intros []].
  run_m. destruct (subscript data "id") as [old|e]; [|intros []].
  run_m. destruct (as_int old) as [r|e]; [|intros []].
  run_m. destruct (IdCodec.encode_id (f a) (ct_client_id t) r) as [enc|e]; [|intros []].
  run_m. destruct (assign data "id" (JNum enc)) as [data'|e]; [|intros []].
  unfold emit. run_m. rewrite Hopen. cbn [sent fst snd List.app].
  intros [Heq|[]]. injection Heq as <- <-.
  split; [reflexivity|]. split; [exact Hopen | reflexivity].
Qed.

(** A request and its reply: the frame of a registered client goes to the
    browser with its id replaced by the encoding of (client id, id); and a
    frame of the browser carrying that encoded id goes back, with the id the
    client chose, to the client's socket, provided that its entry is the
    first in the table under its id and the socket is still open. *)
Theorem request_reply_round_trip (closed : ws -> bool) (a : app)
  (t : client_task) (raw : string) (fields : list (string * json)) (r : Z)
  (up : ws) (n : Z) :
  1 <= n <= 2 ^ 31 ->
  IdCodec.main_params n = Ok (f a) ->
  0 <= ct_client_id t < 2 ^ IdCodec.bits_for_client_id (f a) ->
  0 <= r <= IdCodec.max_request_id (f a) ->
  dict_get (ct_tab_id t) (tabs a) = Some (Some up) ->
  closed up = false ->
  loads raw = Some (JObj fields) ->
  dict_get "id" fields = Some (JNum r) ->
  exists e,
    IdCodec.encode_id (f a) (ct_client_id t) r = Ok e /\
    sent (events (snd (client_on_msg loads dumps closed a t (Text raw)))) =
      [(up, dumps (JObj (dict_set "id" (JNum e) fields)))] /\
    forall (closed' : ws -> bool) (a' : app) (t' raw' : string)
           (fields' : list (string * json))
           (pre post : list (ws * client)) (cl : client),
      f a' = f a ->
      loads raw' = Some (JObj fields') ->
      dict_get "id" fields' = Some (JNum e) ->
      clients a' = (pre ++ (ct_ws t, cl) :: post)%list ->
      id cl = ct_client_id t ->
      (forall kv, In kv pre -> id (snd kv) <> ct_client_id t) ->
      closed' (ct_ws t) = false ->
      sent (events (snd (browser_on_msg loads dumps closed' a' t' (Text raw')))) =
        [(ct_ws t, dumps (JObj (dict_set "id" (JNum r) fields')))].
Proof.
  intros Hn Hp Hc Hr Hup Hopen Hloads Hid.
  destruct (IdCodecExtra.params_shape n (f a) Hn Hp) as (HB & Hmax & Hpos).
  pose proof (IdCodecFacts.decode_encode_raw
                (IdCodec.bits_for_client_id (f a)) (ct_client_id t) r HB
                ltac:(lia)) as Hround.
  unfold IdCodec.encode_id, IdCodec.decode_id. rewrite Hmax.
  destruct (IdCodec.encode_id_raw (ct_client_id t) r _ _) as [e|ex] eqn:Henc;
    [|discriminate Hround].
  cbn [bind] in Hround.
  exists e. split; [reflexivity|]. split.
  - rewrite (client_on_msg_open closed a t raw up Hup Hopen).
    unfold msg_json. rewrite Hloads. unfold ret, lift. run_m.
    cbn [subscript]. rewrite Hid. run_m. cbn [as_int]. run_m.
    unfold IdCodec.encode_id. rewrite Hmax, Henc. run_m.
    cbn [assign]. run_m. unfold emit, send_json. rewrite Hopen.
    unfold emit. run_m. reflexivity.
  - intros closed' a' t' raw' fields' pre post cl Hf Hloads' Hid' Hsplit Hcl Hpre Hw.
    rewrite (browser_on_msg_reply loads dumps closed' a' t' raw' fields' e
               (ct_client_id t) r Hloads' Hid').
    + rewrite Hsplit, (next_client_first (ct_client_id t) pre post (ct_ws t) cl Hcl Hpre).
      destruct (reply_to_found dumps closed' (ct_client_id t) r (ct_ws t) fields')
        as [Hsent _].
      apply (Hsent Hw).
    + rewrite Hf. unfold IdCodec.decode_id. rewrite Hmax. exact Hround.
Qed.

(** A request id above [max_request_id] ends the task of the client with
    [OverflowError]: the frame is not forwarded, nothing is printed, and the
    frames that follow are not read. *)
Theorem request_id_overflow (closed : ws -> bool) (a : app) (t : client_task)
  (raw : string) (data old : json) (r : Z) (up : ws) (rest : list arrival) :
  dict_get (ct_tab_id t) (tabs a) = Some (Some up) ->
  closed up = false ->
  loads raw = Some data ->
  subscript data "id" = Ok old ->
  as_int old = Ok r ->
  IdCodec.max_request_id (f a) < r ->
  client_loop loads dumps a t ((closed, Text raw) :: rest)
  = (a, ([], Raise OverflowError)).
Proof.
  intros Hup Hopen Hloads Hsub Hint Hbig.
  cbn [client_loop].
  assert (Hmsg : client_on_msg loads dumps closed a t (Text raw)
                 = (a, ([], Raise OverflowError))).
  { rewrite (surjective_pairing (client_on_msg loads dumps closed a t (Text raw))).
    rewrite client_on_msg_app.
    rewrite (client_on_msg_open closed a t raw up Hup Hopen).
    unfold msg_json. rewrite Hloads. unfold ret, lift. run_m.
    rewrite Hsub. run_m. rewrite Hint. run_m.
    unfold IdCodec.encode_id, IdCodec.encode_id_raw.
    destruct (r >? IdCodec.max_request_id (f a))%Z eqn:Hgt; [|lia].
    run_m. reflexivity. }
  rewrite Hmsg. reflexivity.
Qed.

(** A reply for a client id under which nobody is registered ends the
    reader of the page with [StopIteration]: neither that frame nor any
    frame after it reaches a client. *)
Theorem reader_stops_on_unknown_client (closed : ws -> bool) (a : app)
  (t raw : string) (fields : list (string * json)) (e c r : Z)
  (rest : list browser_arrival) :
  loads raw = Some (JObj fields) ->
  dict_get "id" fields = Some (JNum e) ->
  IdCodec.decode_id (f a) e = Ok (c, r) ->
  (forall kv, In kv (clients a) -> id (snd kv) <> c) ->
  outcome (browser_loop loads dumps t ((a, closed, Text raw) :: rest))
    = Raise StopIteration /\
  sent (events (browser_loop loads dumps t ((a, closed, Text raw) :: rest))) = [].
Proof.
  intros Hloads Hid Hdec Hnone.
  cbn [browser_loop].
  rewrite (browser_on_msg_reply loads dumps closed a t raw fields e c r
             Hloads Hid Hdec).
  rewrite (find_client_none c (clients a) Hnone).
  run_m. split; reflexivity.
Qed.

Lemma fan_out_to_one (closed : ws -> bool) (raw : string) (w : ws)
  (cs : list (ws * client)) :
  closed w = false ->
  map snd (filter (fun p : ws * string => Nat.eqb (fst p) w)
             (map (fun kv : ws * client => (fst kv, raw))
                  (filter (fun kv => negb (closed (fst kv))) cs)))
  = map (fun _ => raw) (filter (fun kv : ws * client => Nat.eqb (fst kv) w) cs).
Proof.
  intros Hopen. induction cs as [|[w' c] rest IH]; [reflexivity|].
  cbn [filter fst].
  destruct (Nat.eqb w' w) eqn:Hw.
  - apply Nat.eqb_eq in Hw. subst w'. rewrite Hopen. cbn [negb map filter fst].
    rewrite Nat.eqb_refl. cbn [map snd]. rewrite IH. reflexivity.
  - destruct (closed w'); cbn [negb map filter fst]; [exact IH|].
    rewrite Hw. exact IH.
Qed.

(** Events reach a client in the order the browser sent them, each once:
    for a client registered once for the page and whose socket stays open,
    the texts sent to it over a stream of event frames (and frames that are
    not text) are the texts of the frames, in their order. *)
Theorem events_reach_client_in_order (t : string) (w : ws)
  (ms : list browser_arrival) :
  Forall (fun x : browser_arrival =>
            snd (fst x) w = false /\
            map fst (filter (fun kv : ws * client => Nat.eqb (fst kv) w)
                            (clients_of_tab t (clients (fst (fst x))))) = [w] /\
            match snd x with
            | Text raw => exists data, loads raw = Some data /\ get data "id" = Ok None
            | OtherMsg => True
            end) ms ->
  outcome (browser_loop loads dumps t ms) = Ok tt /\
  map snd (filter (fun p : ws * string => Nat.eqb (fst p) w)
                  (sent (events (browser_loop loads dumps t ms))))
  = flat_map (fun x : browser_arrival =>
                match snd x with Text raw => [raw] | OtherMsg => [] end) ms.
Proof.
  induction 1 as [|[[a closed] m] rest [Hopen [Honce Hm]] _ [IHo IHs]];
    cbn [browser_loop flat_map fst snd] in *.
  - split; reflexivity.
  - destruct m as [raw|].
    + destruct Hm as [data [Hloads Hget]].
      assert (Hr : snd (browser_on_msg loads dumps closed a t (Text raw))
                   = fan_out closed raw (clients_of_tab t (clients a))).
      { cbn [browser_on_msg snd]. unfold msg_json. rewrite Hloads.
        unfold ret, lift. run_m. rewrite Hget. run_m.
        destruct (fan_out closed raw (clients_of_tab t (clients a))); reflexivity. }
      rewrite Hr.
      destruct (fan_out_sent closed raw (clients_of_tab t (clients a))) as [Ho Hs].
      destruct (fan_out closed raw (clients_of_tab t (clients a))) as [es res].
      cbn [outcome events fst snd] in Ho, Hs. subst res.
      run_m. split; [exact IHo|].
      rewrite sent_app, filter_app, map_app, IHs, Hs.
      rewrite (fan_out_to_one closed raw w _ Hopen).
      rewrite <- (map_map fst (fun _ => raw)), Honce. reflexivity.
    + cbn [browser_on_msg snd]. unfold ret. run_m. split; assumption.
Qed.

End Frames.

(** *** The theorems at concrete states *)

Remark app1_attached :
  attach_all Examples.app0 [Examples.page_request 1%nat "A"] = Examples.app1.
Proof. reflexivity. Qed.

Lemma client_frames_go_upstream_witness :
  dict_get (ct_tab_id Examples.task1) (tabs Examples.app1) = Some (Some 100%nat) /\
  Examples.all_open 100%nat = false /\
  sent (events (snd (client_on_msg Examples.loads_request Examples.dumps_any
                       Examples.all_open Examples.app1 Examples.task1
                       (Text "request"))))
  = [(100%nat, "{}")].
Proof.
  apply (client_frames_go_upstream Examples.loads_request Examples.dumps_any
           Examples.all_open Examples.app1 Examples.task1 (Text "request")
           100%nat "{}").
  cbn. left. reflexivity.
Defined.

Lemma request_reply_round_trip_witness :
  sent (events (snd (client_on_msg Examples.loads_both Examples.dumps_id
                       Examples.all_open Examples.app2 Examples.task2
                       (Text "request"))))
  = [(100%nat, "1073741831")] /\
  sent (events (snd (browser_on_msg Examples.loads_both Examples.dumps_id
                       Examples.all_open Examples.app2 "A" (Text "reply"))))
  = [(2%nat, "7")].
Proof.
  destruct (request_reply_round_trip Examples.loads_both Examples.dumps_id
              Examples.all_open Examples.app2 Examples.task2 "request"
              [("id", JNum 7); ("method", JStr "Page.enable")] 7 100%nat 2)
    as [e [He [Hrequest Hreply]]];
    [ cbn; lia | reflexivity | cbn; lia | cbn; lia
    | reflexivity | reflexivity | reflexivity | reflexivity | ].
  assert (Heq : e = 1073741831).
  { vm_compute in He. injection He as <-. reflexivity. }
  subst e. split; [exact Hrequest|].
  apply (Hreply Examples.all_open Examples.app2 "A" "reply"
           [("id", JNum 1073741831); ("result", JObj [])]
           [(1%nat, mkClient 0 "A")] [] (mkClient 1 "A"));
    try reflexivity.
  intros kv [<-|[]]. cbn. discriminate.
Defined.

Lemma request_id_overflow_witness :
  client_loop Examples.loads_reply Examples.dumps_any Examples.app1 Examples.task1
    [(Examples.all_open, Text "request"); (Examples.all_open, Text "next")]
  = (Examples.app1, ([], Raise OverflowError)).
Proof.
  apply (request_id_overflow Examples.loads_reply Examples.dumps_any
           Examples.all_open Examples.app1 Examples.task1 "request"
           (JObj [("id", JNum 1073741831)]) (JNum 1073741831) 1073741831 100%nat
           [(Examples.all_open, Text "next")]);
    [ reflexivity | reflexivity | reflexivity | reflexivity | reflexivity
    | cbn; lia ].
Defined.

Lemma reader_stops_on_unknown_client_witness :
  outcome (browser_loop Examples.loads_reply Examples.dumps_any "A"
             [(Examples.app1, Examples.all_open, Text "reply");
              (Examples.app1, Examples.all_open, Text "next")])
    = Raise StopIteration /\
  sent (events (browser_loop Examples.loads_reply Examples.dumps_any "A"
                  [(Examples.app1, Examples.all_open, Text "reply");
                   (Examples.app1, Examples.all_open, Text "next")])) = [].
Proof.
  apply (reader_stops_on_unknown_client Examples.loads_reply Examples.dumps_any
           Examples.all_open Examples.app1 "A" "reply"
           [("id", JNum 1073741831)] 1073741831 1 7
           [(Examples.app1, Examples.all_open, Text "next")]);
    [ reflexivity | reflexivity | reflexivity | ].
  intros kv [<-|[]]. cbn. discriminate.
Defined.

Lemma events_reach_client_in_order_witness :
  outcome (browser_loop Examples.loads_event Examples.dumps_any "A"
             [(Examples.app1, Examples.all_open, Text "first");
              (Examples.app1, Examples.all_open, OtherMsg);
              (Examples.app1, Examples.all_open, Text "second")]) = Ok tt /\
  map snd (filter (fun p : ws * string => Nat.eqb (fst p) 1%nat)
             (sent (events (browser_loop Examples.loads_event Examples.dumps_any "A"
                [(Examples.app1, Examples.all_open, Text "first");
                 (Examples.app1, Examples.all_open, OtherMsg);
                 (Examples.app1, Examples.all_open, Text "second")]))))
  = ["first"; "second"].
Proof.
  apply (events_reach_client_in_order Examples.loads_event Examples.dumps_any
           "A" 1%nat
           [(Examples.app1, Examples.all_open, Text "first");
            (Examples.app1, Examples.all_open, OtherMsg);
            (Examples.app1, Examples.all_open, Text "second")]).
  repeat constructor; eexists; split; reflexivity.
Defined.

End BrokerExtra.

(** ** Splitting: the Host header, the content type, the page id *)

Module SplitExtra.

Import Json HttpProxy.

Local Open Scope string_scope.

Lemma append_assoc (s1 s2 s3 : string) : (s1 ++ s2) ++ s3 = s1 ++ (s2 ++ s3).
Proof. induction s1 as [|c s1 IH]; cbn; [reflexivity | rewrite IH; reflexivity]. Qed.

Lemma append_empty (s : string) : s ++ EmptyString = s.
Proof. induction s as [|c s IH]; cbn; [reflexivity | rewrite IH; reflexivity]. Qed.

Lemma free_of_cons (c d : ascii) (s : string) :
  free_of c (String d s) <-> d <> c /\ free_of c s.
Proof. unfold free_of. cbn. tauto. Qed.

Lemma free_of_append (c : ascii) (s1 s2 : string) :
  free_of c (s1 ++ s2) <-> free_of c s1 /\ free_of c s2.
Proof.
  induction s1 as [|d s1 IH]; cbn.
  - unfold free_of at 2. cbn. tauto.
  - rewrite !free_of_cons, IH. tauto.
Qed.

Lemma split_from_free (sep : ascii) (s acc : string) :
  free_of sep s -> split_from sep acc s = [acc ++ s].
Proof.
  revert acc. induction s as [|c s IH]; intros acc Hfree; cbn.
  - rewrite append_empty. reflexivity.
  - apply free_of_cons in Hfree. destruct Hfree as [Hne Hfree].
    destruct (Ascii.eqb c sep) eqn:Hc; [apply Ascii.eqb_eq in Hc; contradiction|].
    rewrite IH by exact Hfree. rewrite append_assoc. reflexivity.
Qed.

Lemma split_from_at_sep (sep : ascii) (h rest acc : string) :
  free_of sep h ->
  split_from sep acc (h ++ String sep rest) =
  (acc ++ h) :: split_from sep EmptyString rest.
Proof.
  revert acc. induction h as [|c h IH]; intros acc Hfree; cbn.
  - rewrite Ascii.eqb_refl, append_empty. reflexivity.
  - apply free_of_cons in Hfree. destruct Hfree as [Hne Hfree].
    destruct (Ascii.eqb c sep) eqn:Hc; [apply Ascii.eqb_eq in Hc; contradiction|].
    rewrite IH by exact Hfree. rewrite append_assoc. reflexivity.
Qed.

Lemma split_from_nonempty (sep : ascii) (s acc : string) :
  split_from sep acc s <> [].
Proof.
  revert acc. induction s as [|c s IH]; intros acc; cbn; [discriminate|].
  destruct (Ascii.eqb c sep); [discriminate | apply IH].
Qed.

(** Joining the parts with the separator gives the string back. *)
Lemma split_from_join (sep : ascii) (s acc : string) :
  concat (String sep EmptyString) (split_from sep acc s) = acc ++ s.
Proof.
  revert acc. induction s as [|c s IH]; intros acc; cbn [split_from].
  - cbn. rewrite append_empty. reflexivity.
  - destruct (Ascii.eqb c sep) eqn:Hc.
    + apply Ascii.eqb_eq in Hc. subst c.
      pose proof (split_from_nonempty sep s EmptyString) as Hne.
      specialize (IH EmptyString).
      destruct (split_from sep EmptyString s) as [|x xs]; [contradiction|].
      cbn [concat]. cbn [concat] in IH. rewrite IH. reflexivity.
    + rewrite IH, append_assoc. reflexivity.
Qed.

Lemma split_from_parts_free (sep : ascii) (s acc : string) :
  free_of sep acc ->
  Forall (free_of sep) (split_from sep acc s).
Proof.
  revert acc. induction s as [|c s IH]; intros acc Hacc; cbn [split_from].
  - constructor; [exact Hacc | constructor].
  - destruct (Ascii.eqb c sep) eqn:Hc.
    + constructor; [exact Hacc|]. apply IH. intros [].
    + apply IH. apply free_of_append. split; [exact Hacc|].
      apply free_of_cons. split; [|intros []].
      intros Heq. subst c. rewrite Ascii.eqb_refl in Hc. discriminate.
Qed.

(** [split] and joining are inverse to each other: the parts of a string,
    joined with the separator, are the string, and no part holds the
    separator. *)
Theorem split_join (sep : ascii) (s : string) :
  concat (String sep EmptyString) (split sep s) = s /\
  Forall (free_of sep) (split sep s).
Proof.
  unfold split. split.
  - apply (split_from_join sep s EmptyString).
  - apply split_from_parts_free. intros [].
Qed.

(** The Host header is accepted exactly when it has one colon: the host is
    what stands before it and the port what stands after.  A header without
    port, or with more than one colon (an IPv6 address), is a
    [ValueError]. *)
Theorem split_host_spec (host h p : string) :
  split_host host = Ok (h, p) <->
  host = h ++ ":" ++ p /\ free_of ":"%char h /\ free_of ":"%char p.
Proof.
  unfold split_host. split.
  - destruct (split_join ":"%char host) as [Hjoin Hfree].
    destruct (split ":"%char host) as [|x [|y [|z l]]]; try discriminate.
    intros Heq. injection Heq as -> ->.
    cbn [concat] in Hjoin.
    split; [symmetry; exact Hjoin|].
    apply Forall_cons_iff in Hfree. destruct Hfree as [Hh Hrest].
    apply Forall_cons_iff in Hrest. destruct Hrest as [Hp _].
    split; assumption.
  - intros [-> [Hh Hp]]. unfold split. cbn [append].
    rewrite split_from_at_sep by exact Hh.
    rewrite split_from_free by exact Hp. reflexivity.
Qed.

(** The content type handed on is the header up to its first semicolon:
    without parameters the header itself, otherwise the media type before
    them. *)
Theorem content_type_spec (media rest : string) :
  free_of ";"%char media ->
  content_type media = media /\
  content_type (media ++ String ";"%char rest) = media.
Proof.
  intros Hfree. unfold content_type, split. split.
  - rewrite split_from_free by exact Hfree. reflexivity.
  - rewrite split_from_at_sep by exact Hfree. reflexivity.
Qed.

Lemma content_type_spec_witness :
  content_type "text/html" = "text/html" /\
  content_type ("text/html" ++ String ";"%char " charset=UTF-8") = "text/html".
Proof.
  apply (content_type_spec "text/html" " charset=UTF-8").
  unfold free_of. cbn. intuition discriminate.
Defined.

Lemma last_segment_from_free (s acc : string) :
  free_of "/"%char s -> Broker.last_segment_from acc s = acc ++ s.
Proof.
  revert acc. induction s as [|c s IH]; intros acc Hfree; cbn.
  - rewrite append_empty. reflexivity.
  - apply free_of_cons in Hfree. destruct Hfree as [Hne Hfree].
    destruct (Ascii.eqb c "/"%char) eqn:Hc; [apply Ascii.eqb_eq in Hc; contradiction|].
    rewrite IH by exact Hfree. rewrite append_assoc. reflexivity.
Qed.

(** The page id of a request is what follows the last slash of its path and
    query. *)
Theorem last_segment_spec (pre page : string) :
  free_of "/"%char page ->
  Broker.last_segment (pre ++ String "/"%char page) = page.
Proof.
  intros Hfree. unfold Broker.last_segment.
  generalize EmptyString as acc.
  induction pre as [|c pre IH]; intros acc; cbn.
  - apply (last_segment_from_free page EmptyString Hfree).
  - destruct (Ascii.eqb c "/"%char); apply IH.
Qed.

Lemma last_segment_spec_witness :
  Broker.last_segment ("/devtools/page" ++ String "/"%char "A?x=1") = "A?x=1".
Proof.
  apply (last_segment_spec "/devtools/page" "A?x=1").
  unfold free_of. cbn. intuition discriminate.
Defined.

End SplitExtra.

(** ** HttpProxy: what the rewriting does to a tab *)

Module HttpProxyExtra.

Import Json HttpProxy HttpProxyFacts SplitExtra.

Local Open Scope string_scope.

(** *** Matching *)

Lemma string_length_append (s1 s2 : string) :
  String.length (s1 ++ s2) = (String.length s1 + String.length s2)%nat.
Proof. induction s1 as [|c s1 IH]; cbn; [reflexivity | rewrite IH; reflexivity]. Qed.

Lemma matches_here_app (p q : list pchar) (s : string) :
  matches_here (p ++ q)%list s =
  match matches_here p s with
  | Some r => matches_here q r
  | None => None
  end.
Proof.
  revert s. induction p as [|pc p IH]; intros s; [reflexivity|].
  cbn [List.app matches_here].
  destruct (pchar_matches pc s) as [r|]; [apply IH | reflexivity].
Qed.

Lemma continuation_text (k : nat) (s r : string) :
  continuation k s = Some r -> exists m, s = m ++ r /\ String.length m = k.
Proof.
  revert s. induction k as [|k IH]; intros s Hc.
  - cbn in Hc. injection Hc as ->. exists EmptyString. split; reflexivity.
  - destruct s as [|c s]; [discriminate|]. cbn [continuation] in Hc.
    destruct (is_continuation c); [|discriminate].
    destruct (IH s Hc) as [m [-> Hlen]].
    exists (String c m). cbn. rewrite Hlen. split; reflexivity.
Qed.

(** What a character of the expression takes from the text is a start of
    the text, of one byte at least. *)
Lemma pchar_matches_text (pc : pchar) (s r : string) :
  pchar_matches pc s = Some r ->
  exists m, s = m ++ r /\ m <> EmptyString.
Proof.
  destruct s as [|c s]; [discriminate|]. destruct pc as [c'|]; cbn [pchar_matches].
  - destruct (Ascii.eqb c' c); [|discriminate].
    intros Hr. injection Hr as ->.
    exists (String c EmptyString). split; [reflexivity | discriminate].
  - destruct (Ascii.eqb c "010"%char); [discriminate|].
    destruct (utf8_width c) as [|k]; [discriminate|].
    intros Hc. destruct (continuation_text k s r Hc) as [m [-> _]].
    exists (String c m). split; [reflexivity | discriminate].
Qed.

Lemma matches_here_text (p : list pchar) (s r : string) :
  matches_here p s = Some r ->
  exists m, s = m ++ r /\ (p <> [] -> m <> EmptyString).
Proof.
  revert s. induction p as [|pc p IH]; intros s Hm.
  - cbn in Hm. injection Hm as ->.
    exists EmptyString. split; [reflexivity | intros H; contradiction].
  - cbn [matches_here] in Hm.
    destruct (pchar_matches pc s) as [s1|] eqn:Hpc; [|discriminate].
    destruct (pchar_matches_text pc s s1 Hpc) as [m1 [-> Hne]].
    destruct (IH s1 Hm) as [m2 [-> _]].
    exists (m1 ++ m2). split; [rewrite append_assoc; reflexivity|].
    intros _. destruct m1; [contradiction | discriminate].
Qed.

Lemma matches_literal_app (x : string) (q : list pchar) (s : string) :
  matches_here (literal x ++ q)%list (x ++ s) = matches_here q s.
Proof.
  induction x as [|c x IH]; [reflexivity|].
  cbn [literal list_ascii_of_string map List.app append matches_here pchar_matches].
  rewrite Ascii.eqb_refl. exact IH.
Qed.

Lemma matches_literal_inv (x : string) (q : list pchar) (s r : string) :
  matches_here (literal x ++ q)%list s = Some r ->
  exists s', s = x ++ s' /\ matches_here q s' = Some r.
Proof.
  revert s. induction x as [|c x IH]; intros s Hm.
  - exists s. split; [reflexivity | exact Hm].
  - destruct s as [|d s]; [discriminate|].
    cbn [literal list_ascii_of_string map List.app matches_here pchar_matches] in Hm.
    destruct (Ascii.eqb c d) eqn:Hc; [|discriminate].
    apply Ascii.eqb_eq in Hc. subst d.
    destruct (IH s Hm) as [s' [-> Hr]].
    exists s'. split; [reflexivity | exact Hr].
Qed.

(** *** The guard and the pattern *)

Lemma prefix_append (x r : string) : String.prefix x (x ++ r) = true.
Proof.
  induction x as [|c x IH]; [cbn; destruct r; reflexivity|].
  cbn. destruct (ascii_dec c c) as [_|Hne]; [exact IH | contradiction].
Qed.

Lemma contains_here (x s : string) : String.prefix x s = true -> contains x s = true.
Proof. intros H. destruct s; cbn [contains]; rewrite H; reflexivity. Qed.

Lemma contains_append (x m r : string) : contains x (m ++ x ++ r) = true.
Proof.
  induction m as [|c m IH].
  - cbn [append]. apply contains_here. apply prefix_append.
  - cbn [append contains]. rewrite IH. apply orb_true_r.
Qed.

Lemma matches_then_contains (p : list pchar) (x s r : string) :
  matches_here (p ++ literal x)%list s = Some r -> contains x s = true.
Proof.
  rewrite matches_here_app.
  destruct (matches_here p s) as [s1|] eqn:Hp; [|discriminate].
  intros Hx. destruct (matches_here_text p s s1 Hp) as [m [-> _]].
  rewrite <- (app_nil_r (literal x)) in Hx.
  destruct (matches_literal_inv x [] s1 r Hx) as [s' [-> _]].
  apply contains_append.
Qed.

Lemma match_alternatives_contains (alts : list (list pchar)) (x s : string) (n : nat) :
  match_alternatives alts (literal x) s = Some n -> contains x s = true.
Proof.
  induction alts as [|p alts IH]; cbn [match_alternatives]; [discriminate|].
  destruct (matches_here (p ++ literal x)%list s) as [r|] eqn:Hm; [|exact IH].
  intros _. apply (matches_then_contains p x s r Hm).
Qed.

Lemma has_match_contains (chrome_host : hostname) (chrome_port : Z) (s : string) :
  has_match (devtools_pattern chrome_host chrome_port) s = true ->
  contains (":" ++ fmt_d chrome_port ++ "/") s = true.
Proof.
  induction s as [|c s IH]; cbn [has_match].
  - destruct (match_here _ EmptyString) as [n|] eqn:Hm; [|discriminate].
    intros _. apply (match_alternatives_contains _ _ _ n Hm).
  - destruct (match_here _ (String c s)) as [n|] eqn:Hm.
    + intros _. apply (match_alternatives_contains _ _ _ n Hm).
    + intros Hrest. cbn [contains]. rewrite (IH Hrest). apply orb_true_r.
Qed.

(** The test [":%d/" in v] never keeps a match from being replaced: with or
    without it, the value of a field after the loop is [pattern.sub] of the
    value before. *)
Theorem guard_is_redundant (chrome_host : hostname) (chrome_port : Z)
  (proxy_host proxy_port : plain) (v : string) :
  rewrite_value chrome_host chrome_port proxy_host proxy_port v =
  sub (devtools_pattern chrome_host chrome_port)
      (replacement proxy_host proxy_port) v.
Proof.
  unfold rewrite_value.
  destruct (contains (":" ++ fmt_d chrome_port ++ "/") v) eqn:Hguard; [reflexivity|].
  symmetry. apply sub_no_match.
  destruct (has_match (devtools_pattern chrome_host chrome_port) v) eqn:Hm;
    [|reflexivity].
  rewrite (has_match_contains chrome_host chrome_port v Hm) in Hguard.
  discriminate.
Qed.

(** *** A url that starts with one of the hosts *)

(** The upstream host matches its own expression: a dot stands for any
    code point but a newline, so for a dot as well. *)
Lemma matches_host_expr_app (h : hostname) (q : list pchar) (s : string) :
  matches_here (host_expr h ++ q)%list (host_text h ++ s) = matches_here q s.
Proof.
  unfold host_expr. induction (host_text h) as [|c x IH]; [reflexivity|].
  cbn [list_ascii_of_string map List.app append matches_here].
  destruct (Ascii.eqb c "."%char) eqn:Hdot; cbn [pchar_matches].
  - apply Ascii.eqb_eq in Hdot. subst c. exact IH.
  - rewrite Ascii.eqb_refl. exact IH.
Qed.

(** A host name holds no colon. *)
Lemma hostname_free_of_colon (h : hostname) : free_of ":"%char (host_text h).
Proof.
  pose proof (host_ok h) as Hok. unfold free_of.
  induction (host_text h) as [|c x IH]; [intros []|].
  cbn [list_ascii_of_string forallb] in Hok. apply andb_prop in Hok.
  destruct Hok as [Hc Hx]. cbn [list_ascii_of_string In].
  intros [-> | Hin]; [discriminate | exact (IH Hx Hin)].
Qed.

(** Two strings without colon that are followed by a colon in the same
    string are the same. *)
Lemma before_colon_unique (h h' r r' : string) :
  free_of ":"%char h -> free_of ":"%char h' ->
  h ++ String ":"%char r = h' ++ String ":"%char r' -> h = h' /\ r = r'.
Proof.
  revert h'. induction h as [|c h IH]; intros h' Hh Hh' Heq.
  - destruct h' as [|c' h'].
    + cbn in Heq. injection Heq as ->. split; reflexivity.
    + cbn in Heq. injection Heq as Hc _. subst c'.
      apply free_of_cons in Hh'. destruct Hh' as [Hne _]. contradiction.
  - apply free_of_cons in Hh. destruct Hh as [Hne Hh].
    destruct h' as [|c' h'].
    + cbn in Heq. injection Heq as Hc _. contradiction.
    + cbn in Heq. injection Heq as -> Heq.
      apply free_of_cons in Hh'. destruct Hh' as [_ Hh'].
      destruct (IH h' Hh Hh' Heq) as [-> ->]. split; reflexivity.
Qed.

Lemma sub_from_skip (pat : pattern) (repl : template) (x s : string) :
  sub_from pat repl (String.length x) (x ++ s) = sub_from pat repl 0 s.
Proof. induction x as [|c x IH]; [reflexivity | exact IH]. Qed.

Lemma sub_at_match (pat : pattern) (repl : template) (m rest : string) :
  m <> EmptyString ->
  match_here pat (m ++ rest) = Some (String.length m) ->
  sub pat repl (m ++ rest) = template_text repl ++ sub pat repl rest.
Proof.
  intros Hne Hm. destruct m as [|c m]; [contradiction|].
  unfold sub. cbn [append sub_from]. cbn [append] in Hm. rewrite Hm.
  cbn [String.length]. rewrite sub_from_skip. reflexivity.
Qed.

Lemma length_after (m r : string) :
  (String.length (m ++ r) - String.length r)%nat = String.length m.
Proof. rewrite string_length_append. apply Nat.add_sub. Qed.

Section LeadingHost.

Variable chrome_host : hostname.
Variable chrome_port : Z.

(** Where the text starts with a host without colon and [:port/], an
    alternative that is literal text without colon takes just that start. *)
Lemma literal_alternative (x host rest r : string) :
  free_of ":"%char x -> free_of ":"%char host ->
  matches_here (literal x ++ literal (":" ++ fmt_d chrome_port ++ "/"))%list
               (host ++ (":" ++ fmt_d chrome_port ++ "/") ++ rest) = Some r ->
  r = rest.
Proof.
  intros Hx Hhost Hm.
  destruct (matches_literal_inv x _ _ _ Hm) as [s' [Heq Hr]].
  rewrite <- (app_nil_r (literal _)) in Hr.
  destruct (matches_literal_inv (":" ++ fmt_d chrome_port ++ "/") [] s' r Hr)
    as [r' [-> Hr']].
  cbn in Hr'. injection Hr' as ->.
  cbn [append] in Heq.
  destruct (before_colon_unique host x _ _ Hhost Hx Heq) as [_ Htail].
  revert Htail. generalize (fmt_d chrome_port). intros d.
  induction d as [|c d IH]; cbn [append]; intros Htail.
  - injection Htail as ->. reflexivity.
  - injection Htail as Htail. exact (IH Htail).
Qed.

(** A value that starts with [127.0.0.1], [localhost] or the upstream host
    followed by [:port/] has that start replaced by the replacement, and
    the substitution goes on with what follows. *)
Theorem sub_replaces_leading_host (repl : template) (host rest : string) :
  host = "127.0.0.1" \/ host = "localhost" \/ host = host_text chrome_host ->
  sub (devtools_pattern chrome_host chrome_port) repl
      (host ++ ":" ++ fmt_d chrome_port ++ "/" ++ rest)
  = template_text repl ++ sub (devtools_pattern chrome_host chrome_port) repl rest.
Proof.
  intros Hhost.
  assert (Hfree : free_of ":"%char host).
  { destruct Hhost as [-> | [-> | ->]];
      [unfold free_of; cbn; intuition discriminate
      |unfold free_of; cbn; intuition discriminate
      |apply hostname_free_of_colon]. }
  set (tail := ":" ++ fmt_d chrome_port ++ "/").
  assert (Hshape : host ++ ":" ++ fmt_d chrome_port ++ "/" ++ rest
                   = (host ++ tail) ++ rest).
  { subst tail. cbn [append]. rewrite !append_assoc. cbn [append].
    rewrite append_assoc. reflexivity. }
  rewrite Hshape. apply sub_at_match.
  { subst tail. destruct host; discriminate. }
  unfold match_here, devtools_pattern. cbn [alternatives suffix match_alternatives].
  fold tail.
  assert (Hlit1 : free_of ":"%char "127.0.0.1").
  { unfold free_of. cbn. intuition discriminate. }
  assert (Hlit2 : free_of ":"%char "localhost").
  { unfold free_of. cbn. intuition discriminate. }
  destruct (matches_here (literal "127.0.0.1" ++ literal tail)%list _) as [r|] eqn:H1.
  { rewrite append_assoc in H1.
    rewrite (literal_alternative "127.0.0.1" host rest r Hlit1 Hfree H1).
    rewrite length_after. reflexivity. }
  destruct (matches_here (literal "localhost" ++ literal tail)%list _) as [r|] eqn:H2.
  { rewrite append_assoc in H2.
    rewrite (literal_alternative "localhost" host rest r Hlit2 Hfree H2).
    rewrite length_after. reflexivity. }
  rewrite append_assoc in H1, H2 |- *.
  destruct Hhost as [-> | [-> | ->]].
  - rewrite matches_literal_app in H1.
    rewrite <- (app_nil_r (literal tail)), matches_literal_app in H1. discriminate.
  - rewrite matches_literal_app in H2.
    rewrite <- (app_nil_r (literal tail)), matches_literal_app in H2. discriminate.
  - rewrite matches_host_expr_app.
    rewrite <- (app_nil_r (literal tail)), matches_literal_app.
    cbn [matches_here]. rewrite <- append_assoc, length_after. reflexivity.
Qed.

End LeadingHost.

Lemma sub_replaces_leading_host_witness :
  sub (devtools_pattern Examples.host_remote 12222)
      (replacement Examples.name_example Examples.port_9222)
      ("10.0.0.2" ++ ":" ++ fmt_d 12222 ++ "/" ++ "devtools/page/A")
  = "example:9222/" ++ sub (devtools_pattern Examples.host_remote 12222)
                           (replacement Examples.name_example Examples.port_9222)
                           "devtools/page/A".
Proof.
  apply (sub_replaces_leading_host Examples.host_remote 12222
           (replacement Examples.name_example Examples.port_9222) "10.0.0.2"
           "devtools/page/A").
  right. right. reflexivity.
Defined.

(** The dot of the upstream host takes a whole code point: with the host
    [a.b], the text [a], e-acute (two bytes), [b] before [:9222/] is a
    match. *)
Example dot_takes_code_point :
  sub (devtools_pattern (mkHostname "a.b" eq_refl) 9222)
      (replacement Examples.name_example Examples.port_9222)
      ("ws://a" ++ String "195" (String "169" "b:9222/devtools/page/A"))
  = "ws://example:9222/devtools/page/A".
Proof. reflexivity. Qed.

(** *** The fields of a rewritten tab *)

Section Fields.

Variable chrome_host : hostname.
Variable chrome_port : Z.
Variable proxy_host proxy_port : plain.

Lemma dict_get_rewrite_fields (k : string) (t : tab) :
  dict_get k (rewrite_fields chrome_host chrome_port proxy_host proxy_port t) =
  option_map (rewrite_value chrome_host chrome_port proxy_host proxy_port)
             (dict_get k t).
Proof.
  unfold rewrite_fields. induction t as [|[k' v] rest IH]; [reflexivity|].
  cbn. destruct (String.eqb k k'); [reflexivity | exact IH].
Qed.

Lemma rewrite_fields_keys (t : tab) :
  map fst (rewrite_fields chrome_host chrome_port proxy_host proxy_port t) = map fst t.
Proof. unfold rewrite_fields. rewrite map_map. reflexivity. Qed.

Lemma set_default_keeps (k k' v v' : string) (t : tab) :
  dict_get k t = Some v -> dict_get k (set_default k' v' t) = Some v.
Proof.
  intros Hget. destruct (String.eqb k k') eqn:Hk.
  - apply String.eqb_eq in Hk. subst k'.
    rewrite set_default_present; [exact Hget | rewrite Hget; discriminate].
  - rewrite set_default_get_other; [exact Hget|].
    intros ->. rewrite String.eqb_refl in Hk. discriminate.
Qed.

Lemma set_default_absent (k v : string) (t : tab) :
  dict_get k t = None -> dict_get k (set_default k v t) = Some v.
Proof.
  intros Hget. unfold set_default. rewrite Hget. apply dict_get_set_same.
Qed.

Lemma set_default_keys (k v : string) (t : tab) :
  map fst (set_default k v t) =
  (map fst t ++ match dict_get k t with None => [k] | Some _ => [] end)%list.
Proof.
  unfold set_default. destruct (dict_get k t) eqn:Hget.
  - rewrite app_nil_r. reflexivity.
  - apply (BrokerExtra.dict_set_keys_absent k v t Hget).
Qed.

(** No field is dropped and none is replaced: a field the tab has is in
    the rewritten tab under the same key, its value passed through the
    substitution; this holds for the two url fields as well, which are
    synthesized only when missing. *)
Theorem existing_field_rewritten (t : tab) (k v : string) :
  dict_get k t = Some v ->
  dict_get k (rewrite_tab chrome_host chrome_port proxy_host proxy_port t) =
  Some (rewrite_value chrome_host chrome_port proxy_host proxy_port v).
Proof.
  intros Hget. unfold rewrite_tab.
  pose proof (dict_get_rewrite_fields k t) as Hk. rewrite Hget in Hk. cbn in Hk.
  destruct (dict_get "id" (rewrite_fields _ _ _ _ t)); [|exact Hk].
  apply set_default_keeps. apply set_default_keeps. exact Hk.
Qed.

(** The two urls of a tab with an id: where the tab has none, the rewritten
    tab has the url built from the Host header and the id as the loop has
    left it; a tab without id gets no field. *)
Theorem missing_urls_synthesized (t : tab) :
  let t' := rewrite_tab chrome_host chrome_port proxy_host proxy_port t in
  match dict_get "id" t with
  | Some i =>
      let url := proxy_host ++ ":" ++ proxy_port ++ "/devtools/page/"
                 ++ rewrite_value chrome_host chrome_port proxy_host proxy_port i in
      (dict_get "webSocketDebuggerUrl" t = None ->
       dict_get "webSocketDebuggerUrl" t' = Some ("ws://" ++ url)) /\
      (dict_get "devtoolsFrontendUrl" t = None ->
       dict_get "devtoolsFrontendUrl" t' = Some ("/devtools/inspector.html?ws=" ++ url))
  | None =>
      t' = rewrite_fields chrome_host chrome_port proxy_host proxy_port t
  end.
Proof.
  intros t'. subst t'. unfold rewrite_tab.
  pose proof (dict_get_rewrite_fields "id" t) as Hid.
  destruct (dict_get "id" t) as [i|]; cbn [option_map] in Hid; rewrite Hid;
    [|reflexivity].
  cbn zeta. split; intros Hnone.
  - rewrite set_default_get_other by discriminate.
    apply set_default_absent.
    rewrite dict_get_rewrite_fields, Hnone. reflexivity.
  - apply set_default_absent.
    rewrite set_default_get_other by discriminate.
    rewrite dict_get_rewrite_fields, Hnone. reflexivity.
Qed.

(** The keys of a rewritten tab are the keys of the tab, in their order,
    followed by the url keys that were missing, if the tab has an id. *)
Theorem rewrite_tab_keys (t : tab) :
  map fst (rewrite_tab chrome_host chrome_port proxy_host proxy_port t) =
  (map fst t ++
   match dict_get "id" t with
   | None => []
   | Some _ =>
       match dict_get "webSocketDebuggerUrl" t with
       | None => ["webSocketDebuggerUrl"]
       | Some _ => []
       end ++
       match dict_get "devtoolsFrontendUrl" t with
       | None => ["devtoolsFrontendUrl"]
       | Some _ => []
       end
   end)%list.
Proof.
  unfold rewrite_tab.
  pose proof (dict_get_rewrite_fields "id" t) as Hid.
  destruct (dict_get "id" t) as [i|]; cbn [option_map] in Hid; rewrite Hid.
  - rewrite !set_default_keys, rewrite_fields_keys, <- app_assoc.
    rewrite set_default_get_other by discriminate.
    rewrite !dict_get_rewrite_fields.
    destruct (dict_get "webSocketDebuggerUrl" t),
             (dict_get "devtoolsFrontendUrl" t); reflexivity.
  - rewrite rewrite_fields_keys, app_nil_r. reflexivity.
Qed.

End Fields.

Lemma existing_field_rewritten_witness :
  dict_get "webSocketDebuggerUrl"
    (rewrite_tab Examples.host_loopback 12222 Examples.name_example Examples.port_9222
       [("id", "A");
        ("webSocketDebuggerUrl", "ws://127.0.0.1:12222/devtools/page/A")])
  = Some (rewrite_value Examples.host_loopback 12222
            Examples.name_example Examples.port_9222
            "ws://127.0.0.1:12222/devtools/page/A").
Proof.
  apply (existing_field_rewritten Examples.host_loopback 12222
           Examples.name_example Examples.port_9222
           [("id", "A");
            ("webSocketDebuggerUrl", "ws://127.0.0.1:12222/devtools/page/A")]
           "webSocketDebuggerUrl" "ws://127.0.0.1:12222/devtools/page/A").
  reflexivity.
Defined.

End HttpProxyExtra.

(** ** Rewriting an array that has been rewritten *)

Module HttpProxyTwice.

Import Json HttpProxy HttpProxyFacts SplitExtra HttpProxyExtra.

Local Open Scope string_scope.

(** *** Code points *)

Lemma ascii7_width (c : ascii) : is_ascii7 c = true -> utf8_width c = 1%nat.
Proof. unfold is_ascii7, utf8_width. intros ->. reflexivity. Qed.

Lemma ascii7_not_continuation (c : ascii) :
  is_ascii7 c = true -> is_continuation c = false.
Proof.
  unfold is_ascii7, is_continuation. intros H. apply Nat.ltb_lt in H.
  destruct (Nat.leb 128 (nat_of_ascii c)) eqn:E; [|reflexivity].
  apply Nat.leb_le in E. lia.
Qed.

Lemma continuation_extend (k : nat) (s r y : string) :
  continuation k s = Some r -> continuation k (s ++ y) = Some (r ++ y).
Proof.
  revert s. induction k as [|k IH]; intros s Hc.
  - cbn in Hc |- *. injection Hc as ->. reflexivity.
  - destruct s as [|c s]; [discriminate|]. cbn [continuation append] in Hc |- *.
    destruct (is_continuation c); [apply IH; exact Hc | discriminate].
Qed.

Lemma pchar_matches_extend (pc : pchar) (s r y : string) :
  pchar_matches pc s = Some r -> pchar_matches pc (s ++ y) = Some (r ++ y).
Proof.
  destruct s as [|c s]; [discriminate|]. destruct pc as [c'|];
    cbn [pchar_matches append].
  - destruct (Ascii.eqb c' c); [|discriminate].
    intros Hr. injection Hr as ->. reflexivity.
  - destruct (Ascii.eqb c "010"%char); [discriminate|].
    destruct (utf8_width c) as [|k]; [discriminate|].
    apply continuation_extend.
Qed.

(** A match stays a match when text is added after it. *)
Lemma matches_here_extend (p : list pchar) (s r y : string) :
  matches_here p s = Some r -> matches_here p (s ++ y) = Some (r ++ y).
Proof.
  revert s. induction p as [|pc p IH]; intros s Hm.
  - cbn in Hm |- *. injection Hm as ->. reflexivity.
  - cbn [matches_here] in Hm |- *.
    destruct (pchar_matches pc s) as [s1|] eqn:Hpc; [|discriminate].
    rewrite (pchar_matches_extend pc s s1 y Hpc). apply IH. exact Hm.
Qed.

(** No code point lies across a place where a byte that is not a
    continuation byte starts. *)
Lemma continuation_split (k : nat) (z : string) (c : ascii) (y r : string) :
  is_continuation c = false ->
  continuation k (z ++ String c y) = Some r ->
  exists z', continuation k z = Some z' /\ r = z' ++ String c y.
Proof.
  intros Hc. revert z. induction k as [|k IH]; intros z Hk.
  - cbn in Hk. injection Hk as <-. exists z. split; reflexivity.
  - destruct z as [|d z]; cbn [append continuation] in Hk |- *.
    + rewrite Hc in Hk. discriminate.
    + destruct (is_continuation d); [apply IH; exact Hk | discriminate].
Qed.

Lemma pchar_matches_split (pc : pchar) (d : ascii) (z : string) (c : ascii)
  (y r : string) :
  is_continuation c = false ->
  pchar_matches pc (String d z ++ String c y) = Some r ->
  exists z', pchar_matches pc (String d z) = Some z' /\ r = z' ++ String c y.
Proof.
  intros Hc. destruct pc as [c'|]; cbn [pchar_matches append].
  - destruct (Ascii.eqb c' d); [|discriminate].
    intros Hr. injection Hr as <-. exists z. split; reflexivity.
  - destruct (Ascii.eqb d "010"%char); [discriminate|].
    destruct (utf8_width d) as [|k]; [discriminate|].
    apply continuation_split. exact Hc.
Qed.

(** A match in [z ++ y], where [y] starts a code point, lies within [z] or
    is made of a match of a start of the expression with all of [z] and a
    match of what is left of the expression at the start of [y]. *)
Lemma matches_here_split (p : list pchar) (z : string) (c : ascii) (y r : string) :
  is_continuation c = false ->
  matches_here p (z ++ String c y) = Some r ->
  (exists z', matches_here p z = Some z' /\ r = z' ++ String c y) \/
  (exists p1 p2, p = (p1 ++ p2)%list /\ p2 <> [] /\
                 matches_here p1 z = Some EmptyString /\
                 matches_here p2 (String c y) = Some r).
Proof.
  intros Hc. revert z. induction p as [|pc p IH]; intros z Hm.
  - left. cbn in Hm. injection Hm as <-. exists z. split; reflexivity.
  - destruct z as [|d z].
    + right. exists [], (pc :: p). cbn [List.app append] in Hm |- *.
      split; [reflexivity|]. split; [discriminate|]. split; [reflexivity | exact Hm].
    + cbn [matches_here] in Hm.
      destruct (pchar_matches pc (String d z ++ String c y)) as [s1|] eqn:Hpc;
        [|discriminate].
      destruct (pchar_matches_split pc d z c y s1 Hc Hpc) as [z' [Hz' ->]].
      destruct (IH z' Hm) as [[z'' [Hz'' ->]] | [p1 [p2 [-> [Hp2 [H1 H2]]]]]].
      * left. exists z''. cbn [matches_here]. rewrite Hz'.
        split; [exact Hz'' | reflexivity].
      * right. exists (pc :: p1), p2. cbn [List.app matches_here]. rewrite Hz'.
        split; [reflexivity|]. split; [exact Hp2|]. split; [exact H1 | exact H2].
Qed.

(** *** The replacement between other texts *)

Lemma forallb_append (f : ascii -> bool) (s1 s2 : string) :
  forallb f (list_ascii_of_string (s1 ++ s2)) =
  forallb f (list_ascii_of_string s1) && forallb f (list_ascii_of_string s2).
Proof.
  induction s1 as [|c s1 IH]; [reflexivity|].
  cbn [append list_ascii_of_string forallb]. rewrite IH. apply andb_assoc.
Qed.

(** A match at the start of ASCII text followed by other text is allowed
    by [compat]. *)
Lemma matches_here_compat (p : list pchar) (r v rest : string) :
  forallb is_ascii7 (list_ascii_of_string r) = true ->
  matches_here p (r ++ v) = Some rest -> compat p r = true.
Proof.
  revert r. induction p as [|pc p IH]; intros r Hascii Hm; [reflexivity|].
  destruct r as [|c r]; [reflexivity|].
  cbn [list_ascii_of_string forallb] in Hascii. apply andb_prop in Hascii.
  destruct Hascii as [Hc Hr].
  destruct pc as [c'|];
    cbn [append matches_here pchar_matches] in Hm; cbn [compat pchar_accepts].
  - destruct (Ascii.eqb c' c); [|discriminate]. exact (IH r Hr Hm).
  - destruct (Ascii.eqb c "010"%char); [discriminate|].
    rewrite (ascii7_width c Hc) in Hm. cbn [continuation] in Hm.
    exact (IH r Hr Hm).
Qed.

Lemma drop_append (s1 s2 : string) : drop (String.length s1) (s1 ++ s2) = s2.
Proof. induction s1 as [|c s1 IH]; [destruct s2; reflexivity | exact IH]. Qed.

Lemma skipn_append (p1 p2 : list pchar) : skipn (List.length p1) (p1 ++ p2)%list = p2.
Proof. induction p1 as [|pc p1 IH]; [reflexivity | exact IH]. Qed.

Lemma isolated_inv (pat : pattern) (r : string) :
  isolated pat r = true ->
  r <> EmptyString /\
  forallb is_ascii7 (list_ascii_of_string r) = true /\
  forall alt, In alt (alternatives pat) ->
    (forall x, (x < String.length r)%nat ->
               compat (alt ++ suffix pat)%list (drop x r) = false) /\
    (forall a, (1 <= a < List.length (alt ++ suffix pat)%list)%nat ->
               compat (skipn a (alt ++ suffix pat)%list) r = false).
Proof.
  unfold isolated. intros H. apply andb_prop in H. destruct H as [H Halts].
  apply andb_prop in H. destruct H as [Hne Hascii].
  split; [destruct r; [discriminate Hne | discriminate]|].
  split; [exact Hascii|].
  intros alt Hin. rewrite forallb_forall in Halts.
  specialize (Halts alt Hin). cbn zeta in Halts.
  apply andb_prop in Halts. destruct Halts as [Hx Ha].
  rewrite forallb_forall in Hx, Ha. split.
  - intros x Hlt. apply negb_true_iff. apply Hx. apply in_seq. lia.
  - intros a Hlt. apply negb_true_iff. apply Ha. apply in_seq. lia.
Qed.

Lemma isolated_alternative (pat : pattern) (r : string) (alt : list pchar) :
  isolated pat r = true -> In alt (alternatives pat) ->
  (alt ++ suffix pat)%list <> [].
Proof.
  intros Hiso Hin Hnil.
  destruct (isolated_inv pat r Hiso) as [Hne [_ Halts]].
  destruct (Halts alt Hin) as [Hx _].
  assert (Hlen : (0 < String.length r)%nat).
  { destruct r; [contradiction | cbn; lia]. }
  specialize (Hx 0%nat Hlen). rewrite Hnil in Hx. discriminate.
Qed.

Lemma match_alternatives_none (alts : list (list pchar)) (suf : list pchar)
  (s : string) :
  match_alternatives alts suf s = None <->
  forall alt, In alt alts -> matches_here (alt ++ suf)%list s = None.
Proof.
  induction alts as [|p alts IH]; cbn [match_alternatives].
  - split; [intros _ alt [] | reflexivity].
  - destruct (matches_here (p ++ suf)%list s) as [r|] eqn:Hp.
    + split; [discriminate|]. intros H.
      rewrite (H p (or_introl eq_refl)) in Hp. discriminate.
    + rewrite IH. split.
      * intros H alt [<- | Hin]; [exact Hp | exact (H alt Hin)].
      * intros H alt Hin. apply H. right. exact Hin.
Qed.

Lemma match_alternatives_some (alts : list (list pchar)) (suf : list pchar)
  (s : string) (n : nat) :
  match_alternatives alts suf s = Some n ->
  exists alt r, In alt alts /\ matches_here (alt ++ suf)%list s = Some r /\
                n = (String.length s - String.length r)%nat.
Proof.
  induction alts as [|p alts IH]; cbn [match_alternatives]; [discriminate|].
  destruct (matches_here (p ++ suf)%list s) as [r|] eqn:Hp.
  - intros Hn. injection Hn as <-. exists p, r.
    split; [left; reflexivity|]. split; [exact Hp | reflexivity].
  - intros Hn. destruct (IH Hn) as [alt [r [Hin [Hm Hlen]]]].
    exists alt, r. split; [right; exact Hin|]. split; [exact Hm | exact Hlen].
Qed.

(** A match is the text before what is left, and is not empty. *)
Lemma match_here_text (pat : pattern) (r s : string) (n : nat) :
  isolated pat r = true -> match_here pat s = Some n ->
  exists m rest, s = m ++ rest /\ m <> EmptyString /\ n = String.length m.
Proof.
  intros Hiso Hm. unfold match_here in Hm.
  destruct (match_alternatives_some _ _ _ _ Hm) as [alt [rest [Hin [Halt ->]]]].
  destruct (matches_here_text _ _ _ Halt) as [m [-> Hne]].
  exists m, rest. split; [reflexivity|].
  split; [apply Hne; apply (isolated_alternative pat r alt Hiso Hin)|].
  apply length_after.
Qed.

Lemma match_here_empty (pat : pattern) (r : string) :
  isolated pat r = true -> match_here pat EmptyString = None.
Proof.
  intros Hiso. destruct (match_here pat EmptyString) as [n|] eqn:Hm; [|reflexivity].
  destruct (match_here_text pat r _ n Hiso Hm) as [m [rest [Heq [Hne _]]]].
  destruct m; [contradiction | discriminate].
Qed.

(** *** Where a match starts *)

Lemma has_match_append (pat : pattern) (u w : string) :
  has_match pat (u ++ w) = negb (no_start pat u w) || has_match pat w.
Proof.
  induction u as [|c u IH]; [reflexivity|].
  cbn [append has_match no_start].
  destruct (match_here pat (String c (u ++ w))); [reflexivity | exact IH].
Qed.

Lemma no_start_append (pat : pattern) (u1 u2 w : string) :
  no_start pat (u1 ++ u2) w = no_start pat u1 (u2 ++ w) && no_start pat u2 w.
Proof.
  induction u1 as [|c u1 IH]; [reflexivity|].
  cbn [append no_start]. rewrite append_assoc.
  destruct (match_here pat (String c (u1 ++ u2 ++ w))); [reflexivity | exact IH].
Qed.

Lemma no_start_spec (pat : pattern) (u w : string) :
  no_start pat u w = true <->
  forall u1 u2, u = u1 ++ u2 -> u2 <> EmptyString -> match_here pat (u2 ++ w) = None.
Proof.
  induction u as [|c u IH]; cbn [no_start].
  - split; [|reflexivity]. intros _ u1 u2 Heq Hne.
    destruct u1; [cbn in Heq; subst u2; contradiction | discriminate].
  - destruct (match_here pat (String c u ++ w)) as [n|] eqn:Hm.
    + split; [discriminate|]. intros H.
      rewrite (H EmptyString (String c u) eq_refl) in Hm; discriminate.
    + rewrite IH. split.
      * intros H u1 u2 Heq Hne. destruct u1 as [|d u1].
        -- cbn in Heq. subst u2. exact Hm.
        -- cbn in Heq. injection Heq as _ Heq. exact (H u1 u2 Heq Hne).
      * intros H u1 u2 Heq Hne. apply (H (String c u1) u2); [|exact Hne].
        cbn. rewrite Heq. reflexivity.
Qed.

Lemma has_match_suffix (pat : pattern) (u1 u2 : string) :
  has_match pat (u1 ++ u2) = false -> match_here pat u2 = None.
Proof.
  rewrite has_match_append. intros H. apply orb_false_iff in H.
  destruct H as [_ H]. destruct u2; cbn [has_match] in H;
    destruct (match_here pat _); [discriminate | reflexivity
                                 |discriminate | reflexivity].
Qed.

Section Isolated.

Variable pat : pattern.
Variable r : string.
Hypothesis Hisolated : isolated pat r = true.

(** No match starts within the replacement. *)
Lemma no_start_inside (v : string) : no_start pat r v = true.
Proof.
  destruct (isolated_inv pat r Hisolated) as [_ [Hascii Halts]].
  apply no_start_spec. intros r1 r2 Heq Hne.
  unfold match_here. apply match_alternatives_none. intros alt Hin.
  destruct (matches_here (alt ++ suffix pat)%list (r2 ++ v)) as [rest|] eqn:Hm;
    [|reflexivity].
  destruct (Halts alt Hin) as [Hx _].
  assert (Hlt : (String.length r1 < String.length r)%nat).
  { rewrite Heq, string_length_append. destruct r2; [contradiction | cbn; lia]. }
  specialize (Hx _ Hlt). rewrite Heq, drop_append in Hx.
  rewrite Heq, forallb_append in Hascii. apply andb_prop in Hascii.
  rewrite (matches_here_compat _ r2 v rest (proj2 Hascii) Hm) in Hx. discriminate.
Qed.

(** A match that starts before the replacement ends before it. *)
Lemma no_straddle (alt : list pchar) (u v rest : string) :
  u <> EmptyString -> In alt (alternatives pat) ->
  matches_here (alt ++ suffix pat)%list (u ++ r ++ v) = Some rest ->
  exists rest', matches_here (alt ++ suffix pat)%list u = Some rest'.
Proof.
  intros Hu Hin Hm.
  destruct (isolated_inv pat r Hisolated) as [Hne [Hascii Halts]].
  destruct r as [|c r'] eqn:Hr; [contradiction|]. rewrite <- Hr in *.
  assert (Hc : is_continuation c = false).
  { apply ascii7_not_continuation. rewrite Hr in Hascii. cbn in Hascii.
    apply andb_prop in Hascii. exact (proj1 Hascii). }
  assert (Hshape : r ++ v = String c (r' ++ v)) by (rewrite Hr; reflexivity).
  rewrite Hshape in Hm.
  destruct (matches_here_split _ u c (r' ++ v) rest Hc Hm)
    as [[z' [Hz' _]] | [p1 [p2 [Hp [Hp2 [H1 H2]]]]]].
  - exists z'. exact Hz'.
  - exfalso. rewrite <- Hshape in H2.
    pose proof (matches_here_compat p2 r v rest Hascii H2) as Hcompat.
    destruct (Halts alt Hin) as [_ Ha].
    assert (Hp1 : p1 <> []).
    { intros ->. cbn in H1. injection H1 as ->. contradiction. }
    specialize (Ha (List.length p1)).
    rewrite Hp, skipn_append, length_app in Ha.
    rewrite Ha in Hcompat; [discriminate|].
    destruct p1; [contradiction|]. destruct p2; [contradiction|]. cbn. lia.
Qed.

(** Before the replacement, a match can only start where a match lies. *)
Lemma no_start_before (u v : string) :
  (forall u1 u2 alt, u = u1 ++ u2 -> u2 <> EmptyString ->
     In alt (alternatives pat) ->
     matches_here (alt ++ suffix pat)%list u2 = None) ->
  no_start pat u (r ++ v) = true.
Proof.
  intros Hfree. apply no_start_spec. intros u1 u2 Heq Hne.
  unfold match_here. apply match_alternatives_none. intros alt Hin.
  destruct (matches_here (alt ++ suffix pat)%list (u2 ++ r ++ v)) as [rest|] eqn:Hm;
    [|reflexivity].
  destruct (no_straddle alt u2 v rest Hne Hin Hm) as [rest' Hrest'].
  rewrite (Hfree u1 u2 alt Heq Hne Hin) in Hrest'. discriminate.
Qed.

(** The replacement between two texts without match gives a text without
    match. *)
Lemma has_match_between (u v : string) :
  has_match pat u = false -> has_match pat v = false ->
  has_match pat (u ++ r ++ v) = false.
Proof.
  intros Hu Hv. rewrite !has_match_append, Hv, no_start_inside.
  rewrite no_start_before; [reflexivity|].
  intros u1 u2 alt Heq Hne Hin. rewrite Heq in Hu.
  apply has_match_suffix in Hu. unfold match_here in Hu.
  rewrite match_alternatives_none in Hu. exact (Hu alt Hin).
Qed.

(** *** Every match is replaced *)

Variable repl : template.
Hypothesis Hrepl : template_text repl = r.

Lemma sub_clears (n : nat) (s : string) :
  (String.length s <= n)%nat ->
  forall u, no_start pat u s = true ->
  no_start pat u (sub pat repl s) = true /\
  has_match pat (sub pat repl s) = false.
Proof.
  revert s. induction n as [|n IH]; intros s Hlen u Hu.
  - destruct s; [|cbn in Hlen; lia]. unfold sub. cbn [sub_from has_match].
    rewrite (match_here_empty pat r Hisolated). split; [exact Hu | reflexivity].
  - destruct s as [|c rest].
    + unfold sub. cbn [sub_from has_match].
      rewrite (match_here_empty pat r Hisolated). split; [exact Hu | reflexivity].
    + destruct (match_here pat (String c rest)) as [k|] eqn:Hm.
      * destruct (match_here_text pat r _ k Hisolated Hm) as [m [s' [Heq [Hne ->]]]].
        rewrite Heq in Hm |- *. rewrite (sub_at_match pat repl m s' Hne Hm), Hrepl.
        assert (Hlen' : (String.length s' <= n)%nat).
        { apply (f_equal String.length) in Heq.
          rewrite string_length_append in Heq. cbn in Heq, Hlen.
          destruct m; [contradiction | cbn in Heq; lia]. }
        destruct (IH s' Hlen' EmptyString eq_refl) as [_ Hfree].
        split.
        -- apply no_start_before. intros u1 u2 alt Hsplit Hu2 Hin.
           destruct (matches_here (alt ++ suffix pat)%list u2) as [rest'|] eqn:Halt;
             [|reflexivity].
           apply (matches_here_extend _ _ _ (String c rest)) in Halt.
           rewrite no_start_spec in Hu. specialize (Hu u1 u2 Hsplit Hu2).
           unfold match_here in Hu. rewrite match_alternatives_none in Hu.
           rewrite (Hu alt Hin) in Halt. discriminate.
        -- rewrite has_match_append, no_start_inside, Hfree. reflexivity.
      * assert (Hsub : sub pat repl (String c rest) = String c (sub pat repl rest)).
        { unfold sub. cbn [sub_from]. rewrite Hm. reflexivity. }
        rewrite Hsub.
        assert (Hu' : no_start pat (u ++ String c EmptyString) rest = true).
        { rewrite no_start_append. cbn [append]. rewrite Hu.
          cbn [no_start append]. rewrite Hm. reflexivity. }
        cbn in Hlen.
        destruct (IH rest ltac:(lia) _ Hu') as [Hstart Hfree].
        rewrite no_start_append in Hstart. apply andb_prop in Hstart.
        destruct Hstart as [Hstart Hc]. cbn [append] in Hstart.
        split; [exact Hstart|].
        change (String c (sub pat repl rest))
          with (String c EmptyString ++ sub pat repl rest).
        rewrite has_match_append, Hc, Hfree. reflexivity.
Qed.

(** After the substitution the pattern matches nowhere. *)
Lemma sub_match_free (s : string) : has_match pat (sub pat repl s) = false.
Proof.
  exact (proj2 (sub_clears (String.length s) s (Nat.le_refl _) EmptyString eq_refl)).
Qed.

End Isolated.

(** *** Text without colon *)

Lemma contains_first (c : ascii) (x s : string) :
  contains (String c x) s = true -> contains (String c EmptyString) s = true.
Proof.
  induction s as [|d s IH]; cbn [contains String.prefix]; [discriminate|].
  destruct (ascii_dec c d); [destruct s; reflexivity|].
  cbn [orb]. exact IH.
Qed.

Lemma contains_char_append (c : ascii) (a b : string) :
  contains (String c EmptyString) (a ++ b) =
  contains (String c EmptyString) a || contains (String c EmptyString) b.
Proof.
  induction a as [|d a IH]; [reflexivity|].
  cbn [append contains String.prefix].
  destruct (ascii_dec c d).
  - destruct (a ++ b), a; reflexivity.
  - cbn [orb]. exact IH.
Qed.

Lemma colon_free_match_free (chrome_host : hostname) (chrome_port : Z) (s : string) :
  contains ":" s = false ->
  has_match (devtools_pattern chrome_host chrome_port) s = false.
Proof.
  intros Hs.
  destruct (has_match (devtools_pattern chrome_host chrome_port) s) eqn:Hm;
    [|reflexivity].
  apply has_match_contains in Hm. apply contains_first in Hm.
  rewrite Hm in Hs. discriminate.
Qed.

(** ["%d" % n] starts with a digit or with the sign. *)
Lemma fmt_d_head (n : Z) :
  exists c d, fmt_d n = String c d /\ c <> "/"%char.
Proof.
  unfold fmt_d, NilZero.string_of_int.
  destruct (Z.to_int n) as [u|u].
  - destruct u; cbn; eexists; eexists; (split; [reflexivity | discriminate]).
  - eexists; eexists. split; [reflexivity | discriminate].
Qed.

Lemma scheme_match_free (chrome_host : hostname) (chrome_port : Z) :
  has_match (devtools_pattern chrome_host chrome_port) "ws://" = false.
Proof.
  destruct (has_match (devtools_pattern chrome_host chrome_port) "ws://") eqn:Hm;
    [|reflexivity].
  apply has_match_contains in Hm.
  destruct (fmt_d_head chrome_port) as [c [d [Hd Hc]]].
  rewrite Hd in Hm. cbn in Hm. destruct (ascii_dec c "/"); [contradiction | discriminate].
Qed.

(** *** The fields of a rewritten tab hold no match *)

Section Rewritten.

Variable chrome_host : hostname.
Variable chrome_port : Z.
Variable proxy_host proxy_port : plain.

Hypothesis Hisolated :
  isolated (devtools_pattern chrome_host chrome_port)
           (template_text (replacement proxy_host proxy_port)) = true.

Lemma rewrite_value_match_free (v : string) :
  has_match (devtools_pattern chrome_host chrome_port)
            (rewrite_value chrome_host chrome_port proxy_host proxy_port v) = false.
Proof.
  unfold rewrite_value.
  destruct (contains (":" ++ fmt_d chrome_port ++ "/") v) eqn:Hguard.
  - apply (sub_match_free _ _ Hisolated _ eq_refl).
  - destruct (has_match (devtools_pattern chrome_host chrome_port) v) eqn:Hm;
      [|reflexivity].
    rewrite (has_match_contains chrome_host chrome_port v Hm) in Hguard.
    discriminate.
Qed.

Lemma rewrite_fields_match_free (t : tab) :
  fields_match_free chrome_host chrome_port
    (rewrite_fields chrome_host chrome_port proxy_host proxy_port t) = true.
Proof.
  unfold fields_match_free, rewrite_fields.
  induction t as [|[k v] rest IH]; [reflexivity|].
  cbn [map forallb fst snd]. rewrite rewrite_value_match_free, IH. reflexivity.
Qed.

Lemma dict_set_match_free (k v : string) (t : tab) :
  fields_match_free chrome_host chrome_port t = true ->
  has_match (devtools_pattern chrome_host chrome_port) v = false ->
  fields_match_free chrome_host chrome_port (dict_set k v t) = true.
Proof.
  unfold fields_match_free. intros Ht Hv.
  induction t as [|[k' v'] rest IH]; cbn [dict_set].
  - cbn. rewrite Hv. reflexivity.
  - cbn [forallb snd] in Ht. apply andb_prop in Ht. destruct Ht as [Hv' Hrest].
    destruct (String.eqb k k'); cbn [forallb snd].
    + rewrite Hv, Hrest. reflexivity.
    + rewrite Hv', (IH Hrest). reflexivity.
Qed.

Lemma set_default_match_free (k v : string) (t : tab) :
  fields_match_free chrome_host chrome_port t = true ->
  (dict_get k t = None ->
   has_match (devtools_pattern chrome_host chrome_port) v = false) ->
  fields_match_free chrome_host chrome_port (set_default k v t) = true.
Proof.
  intros Ht Hv. unfold set_default.
  destruct (dict_get k t); [exact Ht|].
  apply dict_set_match_free; [exact Ht | apply Hv; reflexivity].
Qed.

(** A synthesized url: a text without match, the replacement, and the path
    of the page. *)
Lemma synthesized_match_free (before i : string) :
  has_match (devtools_pattern chrome_host chrome_port) before = false ->
  contains ":" i = false ->
  has_match (devtools_pattern chrome_host chrome_port)
    (before ++ proxy_host ++ ":" ++ proxy_port ++ "/devtools/page/" ++ i) = false.
Proof.
  intros Hbefore Hi.
  assert (Hshape : proxy_host ++ ":" ++ proxy_port ++ "/devtools/page/" ++ i
                   = template_text (replacement proxy_host proxy_port)
                     ++ "devtools/page/" ++ i).
  { cbn [template_text replacement plain_text].
    rewrite !append_assoc. reflexivity. }
  rewrite Hshape. apply (has_match_between _ _ Hisolated); [exact Hbefore|].
  apply colon_free_match_free. rewrite contains_char_append, Hi. reflexivity.
Qed.

Lemma rewrite_tab_match_free (t : tab) :
  synthesis_safe t = true ->
  fields_match_free chrome_host chrome_port
    (rewrite_tab chrome_host chrome_port proxy_host proxy_port t) = true.
Proof.
  intros Hsafe. unfold rewrite_tab.
  pose proof (dict_get_rewrite_fields chrome_host chrome_port proxy_host proxy_port)
    as Hget.
  rewrite (Hget "id" t). unfold synthesis_safe in Hsafe.
  destruct (dict_get "id" t) as [i|]; cbn [option_map];
    [|apply rewrite_fields_match_free].
  assert (Hid : dict_get "webSocketDebuggerUrl" t = None \/
                dict_get "devtoolsFrontendUrl" t = None ->
                contains ":" i = false /\
                rewrite_value chrome_host chrome_port proxy_host proxy_port i = i).
  { intros Hmissing.
    assert (Hi : contains ":" i = false).
    { destruct Hmissing as [Hnone | Hnone]; rewrite Hnone in Hsafe;
        [|destruct (dict_get "webSocketDebuggerUrl" t)];
        apply negb_true_iff in Hsafe; exact Hsafe. }
    split; [exact Hi|]. apply rewrite_value_free.
    apply colon_free_match_free. exact Hi. }
  apply set_default_match_free; [apply set_default_match_free|].
  - apply rewrite_fields_match_free.
  - rewrite (Hget "webSocketDebuggerUrl" t). intros Hnone.
    destruct (dict_get "webSocketDebuggerUrl" t); [discriminate|].
    destruct (Hid (or_introl eq_refl)) as [Hi ->].
    apply synthesized_match_free; [apply scheme_match_free | exact Hi].
  - rewrite set_default_get_other by discriminate.
    rewrite (Hget "devtoolsFrontendUrl" t). intros Hnone.
    destruct (dict_get "devtoolsFrontendUrl" t); [discriminate|].
    destruct (Hid (or_intror eq_refl)) as [Hi ->].
    apply synthesized_match_free; [|exact Hi].
    apply colon_free_match_free. reflexivity.
Qed.

End Rewritten.

(** C8, amended: rewriting the array of [/json] once more, with the same
    Host header, gives the same array, and no field of it holds a match of
    the pattern, provided that (a) no match of the pattern can take in part
    of the text [<proxy_host>:<proxy_port>/] made of the Host header,
    whatever stands around it, and (b) where a url has to be synthesized,
    the id of the tab holds no colon.  The upstream host is a host name or
    an IPv4 address, the Host header holds no backslash. *)
Theorem rewrite_twice (chrome_host : hostname) (chrome_port : Z)
  (host : string) (data : list tab) :
  header_isolated chrome_host chrome_port host = true ->
  forallb synthesis_safe data = true ->
  exists data',
    rewrite_tabs chrome_host chrome_port host data = Some (Ok data') /\
    match_free chrome_host chrome_port data' = true /\
    rewrite_tabs chrome_host chrome_port host data' = Some (Ok data').
Proof.
  unfold header_isolated, rewrite_tabs.
  destruct (split_host host) as [[h p]|e]; [|discriminate].
  destruct (to_plain h) as [proxy_host|]; [|discriminate].
  destruct (to_plain p) as [proxy_port|]; [|discriminate].
  intros Hisolated Hsafe.
  exists (map (rewrite_tab chrome_host chrome_port proxy_host proxy_port) data).
  split; [reflexivity|].
  assert (Hfree : forall t, In t data ->
            fields_match_free chrome_host chrome_port
              (rewrite_tab chrome_host chrome_port proxy_host proxy_port t) = true).
  { intros t Hin. apply rewrite_tab_match_free; [exact Hisolated|].
    rewrite forallb_forall in Hsafe. exact (Hsafe t Hin). }
  split.
  - unfold match_free. rewrite forallb_forall. intros t' Hin.
    apply in_map_iff in Hin. destruct Hin as [t [<- Hin]]. exact (Hfree t Hin).
  - do 2 f_equal. rewrite map_map. apply map_ext_in. intros t Hin.
    apply rewrite_tab_stable. exact (Hfree t Hin).
Qed.

(** Scenario S6: the browser at 127.0.0.1:12222, a request with
    [Host: example:9222]; a tab with its urls, one with two matches in a
    field and no url, one without id. *)
Lemma rewrite_twice_witness :
  let data :=
    [[("id", "A");
      ("url", "http://localhost:12222/a?next=127.0.0.1:12222/b");
      ("webSocketDebuggerUrl", "ws://127.0.0.1:12222/devtools/page/A");
      ("devtoolsFrontendUrl",
       "/devtools/inspector.html?ws=127.0.0.1:12222/devtools/page/A")];
     [("id", "B"); ("url", "http://127.0.0.1:12222/localhost:12222/")];
     [("title", "127.0.0.1:12222/")]] in
  header_isolated Examples.host_loopback 12222 "example:9222" = true /\
  forallb synthesis_safe data = true /\
  exists data',
    rewrite_tabs Examples.host_loopback 12222 "example:9222" data = Some (Ok data') /\
    match_free Examples.host_loopback 12222 data' = true /\
    rewrite_tabs Examples.host_loopback 12222 "example:9222" data' = Some (Ok data').
Proof.
  cbv zeta. split; [reflexivity|]. split; [reflexivity|].
  apply (rewrite_twice Examples.host_loopback 12222 "example:9222"); reflexivity.
Defined.

(** C8 as stated fails: the browser at 127.0.0.1:9222 and a request with
    [Host: dev.localhost:9222].  The url rewritten once holds
    [localhost:9222/], which the pattern matches, so the second pass
    rewrites it again. *)
Lemma rewrite_not_idempotent_counterexample :
  let once :=
    [[("id", "A");
      ("webSocketDebuggerUrl", "ws://dev.localhost:9222/devtools/page/A");
      ("devtoolsFrontendUrl",
       "/devtools/inspector.html?ws=dev.localhost:9222/devtools/page/A")]] in
  rewrite_tabs Examples.host_loopback 9222 "dev.localhost:9222"
    [[("id", "A");
      ("webSocketDebuggerUrl", "ws://127.0.0.1:9222/devtools/page/A")]]
  = Some (Ok once) /\
  rewrite_tabs Examples.host_loopback 9222 "dev.localhost:9222" once
  = Some (Ok [[("id", "A");
         ("webSocketDebuggerUrl", "ws://dev.dev.localhost:9222/devtools/page/A");
         ("devtoolsFrontendUrl",
          "/devtools/inspector.html?ws=dev.dev.localhost:9222/devtools/page/A")]]) /\
  rewrite_tabs Examples.host_loopback 9222 "dev.localhost:9222" once
  <> Some (Ok once).
Proof.
  split; [reflexivity|]. split; [reflexivity|discriminate].
Qed.

End HttpProxyTwice.
